(** * SynoSurveillanceStation: the camera registry facade

    A shallow embedding of [synology_dsm/api/surveillance_station/__init__.py].

    The facade owns two attributes: [self._dsm], the transport every request
    goes through, and [self._data], the camera registry (a Python [dict] keyed
    by camera id, iterated in insertion order).  Every method is modelled as a
    computation in a small state-and-exception monad over those attributes;
    an exception leaves the attributes as they were at the point of the
    [raise], exactly as in Python, where nothing is rolled back. *)

From Stdlib Require Import ZArith List String Ascii Bool DecimalString.
Import ListNotations.

Local Open Scope string_scope.
Local Open Scope list_scope.
Local Open Scope Z_scope.

(* ===================================================================== *)
(** ** Python values sent to and received from the transport *)
(* ===================================================================== *)

(** The names imported from [.const]; that module is not part of the
    sources at hand, so the three names are kept symbolic. *)
Inductive Const : Type :=
| MOTION_DETECTION_BY_SURVEILLANCE
| MOTION_DETECTION_DISABLED
| SNAPSHOT_PROFILE_BALANCED.

(** A value placed in a request's parameter dict, or used as a dict key. *)
Inductive PyVal : Type :=
| PInt (z : Z)
| PStr (s : string)
| PConst (c : Const).

(** [str(k)] for an [int]: decimal digits, with a leading minus sign. *)
Definition py_str_int (z : Z) : string :=
  NilZero.string_of_int (Z.to_int z).

(** [str(b)] for a [bool]. *)
Definition py_str_bool (b : bool) : string :=
  if b then "True" else "False".

(** [int(b)] for a [bool]. *)
Definition py_int_bool (b : bool) : Z :=
  if b then 1 else 0.

(** [c.lower()] on one ASCII character. *)
Definition lower_ascii (c : ascii) : ascii :=
  let n := nat_of_ascii c in
  if (65 <=? n)%nat && (n <=? 90)%nat then ascii_of_nat (n + 32) else c.

(** [s.lower()]. *)
Fixpoint lower (s : string) : string :=
  match s with
  | EmptyString => EmptyString
  | String c s' => String (lower_ascii c) (lower s')
  end.

(** [sep.join(parts)]. *)
Definition join (sep : string) (parts : list string) : string :=
  String.concat sep parts.

(* ===================================================================== *)
(** ** Requests and decoded responses *)
(* ===================================================================== *)

(** One call [self._dsm.get(api, method, params, max_version=...)]. *)
Record Request : Type := mkRequest {
  req_api : string;
  req_method : string;
  req_params : list (string * PyVal);
  req_max_version : option Z
}.

(** A camera record of the [List] response: its ["id"] and the other
    fields, which the facade stores but never reads. *)
Record CameraData : Type := mkCameraData {
  cd_id : Z;
  cd_fields : list (string * PyVal)
}.

(** The ["data"] of a [MotionEnum] response. *)
Record MotionData : Type := mkMotionData {
  md_enabled : bool
}.

(** A live-view record of the [GetLiveViewPath] response: its ["id"] and
    the transport-name to URL mapping. *)
Record LiveViewData : Type := mkLiveViewData {
  lvd_id : Z;
  lvd_paths : list (string * string)
}.

(** The shapes of ["data"] the facade subscripts or iterates. *)
Inductive Data : Type :=
| DCameras (cameras : list CameraData)
| DMotion (motion : MotionData)
| DLiveViews (records : list LiveViewData)
| DHomeMode (on : bool)
| DRaw (body : string).

(** A decoded response: each of the two top-level fields may be absent. *)
Record Response : Type := mkResponse {
  resp_success : option bool;
  resp_data : option Data
}.

(** What the transport raises. *)
Definition TransportFailure : Type := string.

(** The exceptions that can leave a facade method. *)
Inductive Exn : Type :=
| TransportError (failure : TransportFailure)
| KeyError (key : PyVal)
| TypeError.

Inductive Result (A : Type) : Type :=
| Ok (a : A)
| Raise (e : Exn).

Arguments Ok {A} a.
Arguments Raise {A} e.

(* ===================================================================== *)
(** ** The camera entity *)
(* ===================================================================== *)

(** Modelled from the spec: the class [SynoCamera] of [.camera] is not part
    of the sources at hand.  A camera holds its list record, the cached
    motion-detection flag and a live-view entity; the last two are unset on a
    freshly constructed camera. *)
Record SynoCamera : Type := mkSynoCamera {
  camera_data : CameraData;
  motion_detection_enabled : option bool;
  live_view : option LiveViewData
}.

(** Modelled from the spec: [SynoCamera(camera_data)]. *)
Definition SynoCamera_new (d : CameraData) : SynoCamera :=
  {| camera_data := d; motion_detection_enabled := None; live_view := None |}.

(** Modelled from the spec: [dict.update] on the fields of a record, the
    new fields overriding the old ones of the same name. *)
Fixpoint merge_fields (old new : list (string * PyVal)) : list (string * PyVal) :=
  match old with
  | [] => new
  | (k, v) :: old' =>
      if existsb (fun kv => String.eqb (fst kv) k) new
      then merge_fields old' new
      else (k, v) :: merge_fields old' new
  end.

(** Modelled from the spec: [camera.update(camera_data)] merges the new
    fields into the entry. *)
Definition SynoCamera_update (c : SynoCamera) (d : CameraData) : SynoCamera :=
  {| camera_data :=
       {| cd_id := cd_id d;
          cd_fields := merge_fields (cd_fields (camera_data c)) (cd_fields d) |};
     motion_detection_enabled := motion_detection_enabled c;
     live_view := live_view c |}.

(** Modelled from the spec: [camera.update_motion_detection(data)] caches
    the flag of the motion data; a payload that is no motion data leaves
    the flag unset. *)
Definition update_motion_detection (data : Data) (c : SynoCamera) : SynoCamera :=
  {| camera_data := camera_data c;
     motion_detection_enabled :=
       match data with
       | DMotion m => Some (md_enabled m)
       | _ => None
       end;
     live_view := live_view c |}.

(** Modelled from the spec: [camera.live_view.update(live_view_data)]. *)
Definition live_view_update (l : LiveViewData) (c : SynoCamera) : SynoCamera :=
  {| camera_data := camera_data c;
     motion_detection_enabled := motion_detection_enabled c;
     live_view := Some l |}.

(** Modelled from the spec: [getattr(live_view, video_format)], the URL of
    one named transport ([None] when the entity does not hold it). *)
Definition live_view_getattr (l : option LiveViewData) (video_format : string)
  : option string :=
  match l with
  | None => None
  | Some d =>
      option_map snd
        (find (fun kv => String.eqb (fst kv) video_format) (lvd_paths d))
  end.

(* ===================================================================== *)
(** ** The registry: a [dict] in insertion order *)
(* ===================================================================== *)

Module Registry.

Definition t : Type := list (Z * SynoCamera).

(** [{}] *)
Definition empty : t := [].

(** [d.get(k)] *)
Fixpoint lookup (k : Z) (d : t) : option SynoCamera :=
  match d with
  | [] => None
  | (k', v) :: d' => if k =? k' then Some v else lookup k d'
  end.

(** [k in d] *)
Definition mem (k : Z) (d : t) : bool :=
  match lookup k d with Some _ => true | None => false end.

(** [d[k] = v]: an existing key keeps its position, a new one goes last. *)
Fixpoint set_item (k : Z) (v : SynoCamera) (d : t) : t :=
  match d with
  | [] => [(k, v)]
  | (k', v') :: d' =>
      if k =? k' then (k, v) :: d' else (k', v') :: set_item k v d'
  end.

(** In-place mutation of the object stored under [k]. *)
Fixpoint alter (f : SynoCamera -> SynoCamera) (k : Z) (d : t) : t :=
  match d with
  | [] => []
  | (k', v) :: d' =>
      if k =? k' then (k', f v) :: d' else (k', v) :: alter f k d'
  end.

(** [list(d)] *)
Definition keys (d : t) : list Z := map fst d.

(** [d.values()] *)
Definition values (d : t) : list SynoCamera := map snd d.

(** [not d] *)
Definition is_empty (d : t) : bool :=
  match d with [] => true | _ :: _ => false end.

End Registry.

(* ===================================================================== *)
(** ** The facade object and its monad *)
(* ===================================================================== *)

(** Modelled from the spec: the transport [self._dsm] (class [SynologyDSM]
    is not part of the sources at hand).  [backend] answers a request with
    a decoded response or fails; [sent] records, oldest first, every
    request issued through [get]. *)
Record SynologyDSM : Type := mkDSM {
  backend : Request -> TransportFailure + Response;
  sent : list Request
}.

(** The attributes of a [SynoSurveillanceStation] instance. *)
Record SynoSurveillanceStation : Type := mkStation {
  _dsm : SynologyDSM;
  _data : Registry.t
}.

(** A method body: it runs on the object, may change its attributes, and
    either returns a value or raises. *)
Definition M (A : Type) : Type :=
  SynoSurveillanceStation -> SynoSurveillanceStation * Result A.

Definition ret {A} (a : A) : M A := fun self => (self, Ok a).

Definition raise {A} (e : Exn) : M A := fun self => (self, Raise e).

Definition bind {A B} (c : M A) (k : A -> M B) : M B :=
  fun self =>
    match c self with
    | (self', Ok a) => k a self'
    | (self', Raise e) => (self', Raise e)
    end.

Declare Scope py_scope.
Delimit Scope py_scope with py.
Notation "x <- c ;; k" := (bind c (fun x => k))
  (at level 61, c at next level, right associativity) : py_scope.
Notation "c ;; k" := (bind c (fun _ => k))
  (at level 61, right associativity) : py_scope.
Local Open Scope py_scope.

(** Lift a pure, possibly raising, expression. *)
Definition lift {A} (r : Result A) : M A := fun self => (self, r).

(** Read [self._data]. *)
Definition get_data : M Registry.t := fun self => (self, Ok (_data self)).

(** Assign or mutate [self._data]. *)
Definition modify_data (f : Registry.t -> Registry.t) : M unit :=
  fun self => ({| _dsm := _dsm self; _data := f (_data self) |}, Ok tt).

(** [for x in xs: body(x)] *)
Fixpoint for_each {A} (xs : list A) (body : A -> M unit) : M unit :=
  match xs with
  | [] => ret tt
  | x :: xs' => body x ;; for_each xs' body
  end.

(** [await self._dsm.get(api, method, params, max_version=...)]: the request
    is recorded, then the backend's answer is returned or its failure raised. *)
Definition dsm_get (api method : string) (params : list (string * PyVal))
    (max_version : option Z) : M Response :=
  fun self =>
    let req := mkRequest api method params max_version in
    let dsm' := {| backend := backend (_dsm self);
                   sent := sent (_dsm self) ++ [req] |} in
    let self' := {| _dsm := dsm'; _data := _data self |} in
    match backend (_dsm self) req with
    | inl failure => (self', Raise (TransportError failure))
    | inr response => (self', Ok response)
    end.

(* ===================================================================== *)
(** ** Subscripting decoded responses *)
(* ===================================================================== *)

(** [raw_data["data"]] *)
Definition getitem_data (raw_data : Response) : Result Data :=
  match resp_data raw_data with
  | Some d => Ok d
  | None => Raise (KeyError (PStr "data"))
  end.

(** [raw_data["success"]] *)
Definition getitem_success (raw_data : Response) : Result bool :=
  match resp_success raw_data with
  | Some b => Ok b
  | None => Raise (KeyError (PStr "success"))
  end.

(** [list_data["cameras"]]: a dict without that key raises [KeyError], a
    list or a string cannot be subscripted by a string. *)
Definition getitem_cameras (list_data : Data) : Result (list CameraData) :=
  match list_data with
  | DCameras cameras => Ok cameras
  | DMotion _ | DHomeMode _ => Raise (KeyError (PStr "cameras"))
  | DLiveViews _ | DRaw _ => Raise TypeError
  end.

(** [data["on"]] *)
Definition getitem_on (data : Data) : Result bool :=
  match data with
  | DHomeMode on => Ok on
  | DCameras _ | DMotion _ => Raise (KeyError (PStr "on"))
  | DLiveViews _ | DRaw _ => Raise TypeError
  end.

(** The records [for live_view_data in data] hands to a body that
    subscripts each with ["id"]: a list yields its records; a dict yields
    its keys and a non-empty string its characters, neither of which can be
    subscripted by a string. *)
Definition iter_live_views (data : Data) : Result (list LiveViewData) :=
  match data with
  | DLiveViews records => Ok records
  | DRaw EmptyString => Ok []
  | DRaw (String _ _) | DCameras _ | DMotion _ | DHomeMode _ => Raise TypeError
  end.

(* ===================================================================== *)
(** ** The class [SynoSurveillanceStation] *)
(* ===================================================================== *)

Definition API_KEY : string := "SYNO.SurveillanceStation.*".
Definition CAMERA_API_KEY : string := "SYNO.SurveillanceStation.Camera".
Definition CAMERA_EVENT_API_KEY : string := "SYNO.SurveillanceStation.Camera.Event".
Definition HOME_MODE_API_KEY : string := "SYNO.SurveillanceStation.HomeMode".
Definition SNAPSHOT_API_KEY : string := "SYNO.SurveillanceStation.SnapShot".

(** Lines 28-31, the body of the first loop: update the entry of the
    record's id in place, or create it. *)
Definition merge_camera (camera_data : CameraData) (d : Registry.t) : Registry.t :=
  if Registry.mem (cd_id camera_data) d
  then Registry.alter (fun c => SynoCamera_update c camera_data) (cd_id camera_data) d
  else Registry.set_item (cd_id camera_data) (SynoCamera_new camera_data) d.

(** Lines 27-31: one pass over the listed cameras. *)
Definition merge_cameras (cameras : list CameraData) : M unit :=
  for_each cameras (fun camera_data => modify_data (merge_camera camera_data)).

(** Lines 33-37: one [MotionEnum] request per registry entry, in order. *)
Definition update_motion (ids : list Z) : M unit :=
  for_each ids (fun camera_id =>
    motion_raw_data <-
      dsm_get CAMERA_EVENT_API_KEY "MotionEnum" [("camId", PInt camera_id)] None ;;
    data <- lift (getitem_data motion_raw_data) ;;
    modify_data (Registry.alter (update_motion_detection data) camera_id)).

(** Lines 47-48: apply each live-view record to the entry of its id. *)
Definition apply_live_views (records : list LiveViewData) : M unit :=
  for_each records (fun live_view_data =>
    d <- get_data ;;
    match Registry.lookup (lvd_id live_view_data) d with
    | Some _ =>
        modify_data (Registry.alter
          (live_view_update live_view_data) (lvd_id live_view_data))
    | None => raise (KeyError (PInt (lvd_id live_view_data)))
    end).

(** [",".join(str(k) for k in self._data)] *)
Definition id_list (d : Registry.t) : string :=
  join "," (map py_str_int (Registry.keys d)).

(** Lines 39-48: nothing to fetch for an empty registry; otherwise one
    [GetLiveViewPath] request for all ids, then the apply loop. *)
Definition fetch_live_views : M unit :=
  d <- get_data ;;
  if Registry.is_empty d then ret tt
  else
    live_view_datas <-
      dsm_get CAMERA_API_KEY "GetLiveViewPath" [("idList", PStr (id_list d))] None ;;
    data <- lift (getitem_data live_view_datas) ;;
    records <- lift (iter_live_views data) ;;
    apply_live_views records.

Definition update : M unit :=
  modify_data (fun _ => Registry.empty) ;;
  raw_data <- dsm_get CAMERA_API_KEY "List" [] (Some 7) ;;
  list_data <- lift (getitem_data raw_data) ;;
  cameras <- lift (getitem_cameras list_data) ;;
  merge_cameras cameras ;;
  d <- get_data ;;
  update_motion (Registry.keys d) ;;
  fetch_live_views.

(** *** Global *)


(** *** Camera *)

Definition get_all_cameras : M (list SynoCamera) :=
  d <- get_data ;; ret (Registry.values d).

(** [self._data[camera_id]] *)
Definition getitem_camera (camera_id : Z) : M SynoCamera :=
  d <- get_data ;;
  match Registry.lookup camera_id d with
  | Some camera => ret camera
  | None => raise (KeyError (PInt camera_id))
  end.

Definition get_camera (camera_id : Z) : M SynoCamera :=
  getitem_camera camera_id.

(** What [get_camera_live_view_path] returns: one URL or the entity. *)
Inductive LiveViewPath : Type :=
| PathOf (url : option string)
| Entity (entity : option LiveViewData).

(** [if video_format:] is false for [None] and for the empty string. *)
Definition truthy (video_format : option string) : bool :=
  match video_format with
  | Some (String _ _) => true
  | Some EmptyString | None => false
  end.

Definition get_camera_live_view_path (camera_id : Z) (video_format : option string)
  : M LiveViewPath :=
  if truthy video_format then
    camera <- getitem_camera camera_id ;;
    ret (PathOf (live_view_getattr (live_view camera)
                   (match video_format with Some f => f | None => "" end)))
  else
    camera <- getitem_camera camera_id ;;
    ret (Entity (live_view camera)).


Definition enable_camera (camera_id : PyVal) : M bool :=
  raw_data <- dsm_get CAMERA_API_KEY "Enable" [("idList", camera_id)] None ;;
  lift (getitem_success raw_data).

Definition disable_camera (camera_id : PyVal) : M bool :=
  raw_data <- dsm_get CAMERA_API_KEY "Disable" [("idList", camera_id)] None ;;
  lift (getitem_success raw_data).

(** *** Snapshot *)

Definition capture_camera_image (camera_id : PyVal) (save : bool) : M Response :=
  dsm_get SNAPSHOT_API_KEY "TakeSnapshot"
    [("camId", camera_id); ("blSave", PInt (py_int_bool save))] None.

Definition download_snapshot (snapshot_id snapshot_size : PyVal) : M Response :=
  dsm_get SNAPSHOT_API_KEY "LoadSnapshot"
    [("id", snapshot_id); ("imgSize", snapshot_size)] None.

(** *** Motion *)

Definition is_motion_detection_enabled (camera_id : Z) : M (option bool) :=
  camera <- getitem_camera camera_id ;;
  ret (motion_detection_enabled camera).

Definition enable_motion_detection (camera_id : PyVal) : M Response :=
  dsm_get CAMERA_EVENT_API_KEY "MDParamSave"
    [("camId", camera_id); ("source", PConst MOTION_DETECTION_BY_SURVEILLANCE)] None.

Definition disable_motion_detection (camera_id : PyVal) : M Response :=
  dsm_get CAMERA_EVENT_API_KEY "MDParamSave"
    [("camId", camera_id); ("source", PConst MOTION_DETECTION_DISABLED)] None.

(** *** Home mode *)

Definition get_home_mode_status : M bool :=
  raw_data <- dsm_get HOME_MODE_API_KEY "GetInfo" [] None ;;
  data <- lift (getitem_data raw_data) ;;
  lift (getitem_on data).

Definition set_home_mode (state : bool) : M bool :=
  raw_data <-
    dsm_get HOME_MODE_API_KEY "Switch" [("on", PStr (lower (py_str_bool state)))] None ;;
  lift (getitem_success raw_data).

(* ===================================================================== *)
(** ** Vocabulary of the statements *)
(* ===================================================================== *)

(** The three requests [update] issues. *)
Definition list_request : Request :=
  mkRequest CAMERA_API_KEY "List" [] (Some 7).

Definition motion_request (camera_id : Z) : Request :=
  mkRequest CAMERA_EVENT_API_KEY "MotionEnum" [("camId", PInt camera_id)] None.

Definition live_view_request (ids : string) : Request :=
  mkRequest CAMERA_API_KEY "GetLiveViewPath" [("idList", PStr ids)] None.

Definition is_live_view_request (r : Request) : bool :=
  String.eqb (req_method r) "GetLiveViewPath".

(** The registry the first loop of [update] builds from a list response,
    starting from the freshly assigned [{}]. *)
Definition listed (cameras : list CameraData) : Registry.t :=
  fold_left (fun d camera_data => merge_camera camera_data d) cameras Registry.empty.

(** A registry with the motion flags blanked: what is left to compare when
    the motion step ran only in part. *)
Definition forget_motion (c : SynoCamera) : SynoCamera :=
  {| camera_data := camera_data c;
     motion_detection_enabled := None;
     live_view := live_view c |}.

Definition without_motion (d : Registry.t) : Registry.t :=
  map (fun kc => (fst kc, forget_motion (snd kc))) d.

(** Does the entry hold live-view data? *)
Definition has_live_view (c : SynoCamera) : bool :=
  match live_view c with Some _ => true | None => false end.

(** An entry as the list step leaves it: neither motion nor live-view data. *)
Definition bare (c : SynoCamera) : Prop :=
  motion_detection_enabled c = None /\ live_view c = None.

(** The motion request for [camera_id] is answered, with a ["data"] field. *)
Definition motion_ok (b : Request -> TransportFailure + Response) (camera_id : Z) : Prop :=
  exists raw x, b (motion_request camera_id) = inr raw /\ resp_data raw = Some x.

(** The body of the live-view apply loop on a record whose id is a key. *)
Definition apply_record (d : Registry.t) (r : LiveViewData) : Registry.t :=
  Registry.alter (live_view_update r) (lvd_id r) d.

(** The decoded records of a live-view response, as [fetch_live_views]
    reads them. *)
Definition live_view_records (raw : Response) : Result (list LiveViewData) :=
  match getitem_data raw with
  | Ok data => iter_live_views data
  | Raise e => Raise e
  end.

(** The motion loop stops at [camera_id] with [e]: the transport failed,
    or the response lacks ["data"]. *)
Definition motion_stop (b : Request -> TransportFailure + Response)
    (camera_id : Z) (e : Exn) : Prop :=
  (exists f, b (motion_request camera_id) = inl f /\ e = TransportError f) \/
  (exists raw, b (motion_request camera_id) = inr raw /\ resp_data raw = None /\
               e = KeyError (PStr "data")).

(** The decoded cameras of a list response, as [update] reads them. *)
Definition list_cameras (raw : Response) : Result (list CameraData) :=
  match getitem_data raw with
  | Ok data => getitem_cameras data
  | Raise e => Raise e
  end.

(** The requests of a cycle whose motion step served every entry of [d]
    and whose live-view request was sent. *)
Definition full_cycle (d : Registry.t) : list Request :=
  list_request :: map motion_request (Registry.keys d)
    ++ [live_view_request (id_list d)].

(** The ways one [update()] can go against a backend [b]: the requests it
    sends, the registry it leaves and how it ends. *)
Inductive Run (b : Request -> TransportFailure + Response)
  : list Request -> Registry.t -> Result unit -> Prop :=
| RunListFail f :
    b list_request = inl f ->
    Run b [list_request] [] (Raise (TransportError f))
| RunListUndecoded raw e :
    b list_request = inr raw ->
    list_cameras raw = Raise e ->
    Run b [list_request] [] (Raise e)
| RunMotionStop raw cameras d1 before k after e :
    b list_request = inr raw ->
    list_cameras raw = Ok cameras ->
    without_motion d1 = listed cameras ->
    Registry.keys (listed cameras) = before ++ k :: after ->
    (forall j, In j before -> motion_ok b j) ->
    motion_stop b k e ->
    Registry.lookup k d1 = Registry.lookup k (listed cameras) ->
    Run b (list_request :: map motion_request (before ++ [k])) d1 (Raise e)
| RunEmpty raw :
    b list_request = inr raw ->
    list_cameras raw = Ok [] ->
    Run b [list_request] [] (Ok tt)
| RunLiveFail raw cameras d1 f :
    b list_request = inr raw ->
    list_cameras raw = Ok cameras ->
    cameras <> [] ->
    without_motion d1 = listed cameras ->
    (forall j, In j (Registry.keys d1) -> motion_ok b j) ->
    b (live_view_request (id_list d1)) = inl f ->
    Run b (full_cycle d1) d1 (Raise (TransportError f))
| RunLiveUndecoded raw cameras d1 live e :
    b list_request = inr raw ->
    list_cameras raw = Ok cameras ->
    cameras <> [] ->
    without_motion d1 = listed cameras ->
    (forall j, In j (Registry.keys d1) -> motion_ok b j) ->
    b (live_view_request (id_list d1)) = inr live ->
    live_view_records live = Raise e ->
    Run b (full_cycle d1) d1 (Raise e)
| RunApplied raw cameras d1 live records :
    b list_request = inr raw ->
    list_cameras raw = Ok cameras ->
    cameras <> [] ->
    without_motion d1 = listed cameras ->
    (forall j, In j (Registry.keys d1) -> motion_ok b j) ->
    b (live_view_request (id_list d1)) = inr live ->
    live_view_records live = Ok records ->
    (forall r, In r records -> In (lvd_id r) (Registry.keys d1)) ->
    Run b (full_cycle d1) (fold_left apply_record records d1) (Ok tt)
| RunLiveMissing raw cameras d1 live before r after :
    b list_request = inr raw ->
    list_cameras raw = Ok cameras ->
    cameras <> [] ->
    without_motion d1 = listed cameras ->
    (forall j, In j (Registry.keys d1) -> motion_ok b j) ->
    b (live_view_request (id_list d1)) = inr live ->
    live_view_records live = Ok (before ++ r :: after) ->
    (forall r', In r' before -> In (lvd_id r') (Registry.keys d1)) ->
    ~ In (lvd_id r) (Registry.keys d1) ->
    Run b (full_cycle d1) (fold_left apply_record before d1)
      (Raise (KeyError (PInt (lvd_id r)))).

(** A station object from its parts. *)
Definition station (b : Request -> TransportFailure + Response)
    (log : list Request) (d : Registry.t) : SynoSurveillanceStation :=
  mkStation (mkDSM b log) d.

(** Running [op] on [self] sends [req] and nothing else, and changes no
    attribute of the object besides the transport's record of that request. *)
Definition sends_only {A} (op : M A) (self : SynoSurveillanceStation)
    (req : Request) : Prop :=
  fst (op self) =
  station (backend (_dsm self)) (sent (_dsm self) ++ [req]) (_data self).

(* ===================================================================== *)
(** ** Example backends *)
(* ===================================================================== *)

Definition porch : CameraData := mkCameraData 1 [("name", PStr "porch")].
Definition garage : CameraData := mkCameraData 2 [("name", PStr "garage")].

Definition porch_paths : LiveViewData :=
  mkLiveViewData 1 [("rtsp", "rtsp://nas/porch")].
Definition garage_paths : LiveViewData :=
  mkLiveViewData 2 [("rtsp", "rtsp://nas/garage")].
Definition attic_paths : LiveViewData :=
  mkLiveViewData 3 [("rtsp", "rtsp://nas/attic")].

Definition answer (d : Data) : TransportFailure + Response :=
  inr (mkResponse (Some true) (Some d)).

(** A backend that lists [cameras], reports motion detection enabled for
    every camera, answers [GetLiveViewPath] with [records] and acknowledges
    anything else. *)
Definition serving (cameras : list CameraData) (records : list LiveViewData)
  : Request -> TransportFailure + Response :=
  fun req =>
    if String.eqb (req_method req) "List" then answer (DCameras cameras)
    else if String.eqb (req_method req) "MotionEnum"
      then answer (DMotion (mkMotionData true))
    else if String.eqb (req_method req) "GetLiveViewPath"
      then answer (DLiveViews records)
    else inr (mkResponse (Some true) None).

(** Is [req] the motion request for camera [k]? *)
Definition asks_motion_of (k : Z) (req : Request) : bool :=
  String.eqb (req_method req) "MotionEnum" &&
  match req_params req with
  | [(_, PInt z)] => z =? k
  | _ => false
  end.

(** [b], except that the transport times out on the requests [bad] picks. *)
Definition timing_out (bad : Request -> bool)
    (b : Request -> TransportFailure + Response)
  : Request -> TransportFailure + Response :=
  fun req => if bad req then inl "timeout" else b req.


(** A backend that gives the same answer to every request. *)
Definition always (raw : Response) : Request -> TransportFailure + Response :=
  fun _ => inr raw.

(* ===================================================================== *)
(** ** Registry lemmas *)
(* ===================================================================== *)

Module RegistryFacts.
Import Registry.

Lemma lookup_alter f j k d :
  lookup k (alter f j d) =
  if k =? j then option_map f (lookup k d) else lookup k d.
Proof.
  induction d as [|[k' v] d IH]; simpl.
  - now destruct (k =? j).
  - destruct (Z.eqb_spec j k') as [->|Hj]; simpl.
    + destruct (Z.eqb_spec k k'); reflexivity.
    + destruct (Z.eqb_spec k k') as [->|Hk].
      * destruct (Z.eqb_spec k' j); [congruence | reflexivity].
      * exact IH.
Qed.

Lemma keys_alter f j d : keys (alter f j d) = keys d.
Proof.
  unfold keys.
  induction d as [|[k' v] d IH]; simpl; [reflexivity|].
  destruct (j =? k'); simpl; [reflexivity | now rewrite IH].
Qed.

Lemma lookup_set_item j v k d :
  lookup k (set_item j v d) = if k =? j then Some v else lookup k d.
Proof.
  induction d as [|[k' v'] d IH]; simpl.
  - reflexivity.
  - destruct (Z.eqb_spec j k') as [->|Hj]; simpl.
    + destruct (Z.eqb_spec k k'); reflexivity.
    + destruct (Z.eqb_spec k k') as [->|Hk].
      * destruct (Z.eqb_spec k' j); [congruence | reflexivity].
      * exact IH.
Qed.

Lemma lookup_None_keys k d : lookup k d = None <-> ~ In k (keys d).
Proof.
  unfold keys.
  induction d as [|[k' v] d IH]; simpl.
  - tauto.
  - destruct (Z.eqb_spec k k') as [->|Hk].
    + split; [discriminate | tauto].
    + rewrite IH. split; [intros H [E|I]; [congruence | tauto] | tauto].
Qed.

Lemma lookup_Some_keys k d : In k (keys d) <-> exists c, lookup k d = Some c.
Proof.
  destruct (lookup k d) as [c|] eqn:E.
  - split; [eauto|]. intros _.
    destruct (in_dec Z.eq_dec k (keys d)) as [I|N]; [exact I|].
    apply lookup_None_keys in N. congruence.
  - apply lookup_None_keys in E. split; [tauto | intros [c H]; discriminate].
Qed.

Lemma keys_set_item_new j v d :
  lookup j d = None -> keys (set_item j v d) = keys d ++ [j].
Proof.
  unfold keys.
  induction d as [|[k' v'] d IH]; simpl; [reflexivity|].
  destruct (Z.eqb_spec j k'); [discriminate|].
  intros H. simpl. now rewrite IH.
Qed.

Lemma mem_true k d : mem k d = true <-> In k (keys d).
Proof.
  unfold mem. rewrite lookup_Some_keys.
  destruct (lookup k d); split; eauto; try discriminate.
  intros [c H]; discriminate.
Qed.

Lemma mem_false k d : mem k d = false <-> lookup k d = None.
Proof.
  unfold mem. destruct (lookup k d); split; congruence.
Qed.

Lemma is_empty_keys d : is_empty d = true <-> keys d = [].
Proof.
  destruct d; simpl; split; congruence.
Qed.

End RegistryFacts.

(* ===================================================================== *)
(** ** Running the monad *)
(* ===================================================================== *)

Lemma bind_ok {A B} (c : M A) (k : A -> M B) s s' a :
  c s = (s', Ok a) -> bind c k s = k a s'.
Proof. intros H. unfold bind. now rewrite H. Qed.

Lemma bind_raise {A B} (c : M A) (k : A -> M B) s s' e :
  c s = (s', Raise e) -> bind c k s = (s', Raise e).
Proof. intros H. unfold bind. now rewrite H. Qed.

Lemma for_each_app {A} (xs ys : list A) body s :
  for_each (xs ++ ys) body s =
  bind (for_each xs body) (fun _ => for_each ys body) s.
Proof.
  revert s. induction xs as [|x xs IH]; intros s; simpl.
  - reflexivity.
  - unfold bind in *. destruct (body x s) as [s1 [[]|e]]; [apply IH | reflexivity].
Qed.

Lemma dsm_get_ok api method params mv b l d raw :
  b (mkRequest api method params mv) = inr raw ->
  dsm_get api method params mv (station b l d) =
  (station b (l ++ [mkRequest api method params mv]) d, Ok raw).
Proof. intros H. unfold dsm_get, station. simpl. now rewrite H. Qed.

Lemma dsm_get_fail api method params mv b l d f :
  b (mkRequest api method params mv) = inl f ->
  dsm_get api method params mv (station b l d) =
  (station b (l ++ [mkRequest api method params mv]) d, Raise (TransportError f)).
Proof. intros H. unfold dsm_get, station. simpl. now rewrite H. Qed.

Lemma modify_data_run f b l d :
  modify_data f (station b l d) = (station b l (f d), Ok tt).
Proof. reflexivity. Qed.

Lemma lift_run {A} (r : Result A) s : lift r s = (s, r).
Proof. reflexivity. Qed.

Lemma station_eta s : s = station (backend (_dsm s)) (sent (_dsm s)) (_data s).
Proof. destruct s as [[b l] d]. reflexivity. Qed.

(* ===================================================================== *)
(** ** The list step *)
(* ===================================================================== *)

Section ListStep.
Import Registry RegistryFacts.

Lemma merge_cameras_run cameras b l d :
  merge_cameras cameras (station b l d) =
  (station b l (fold_left (fun d c => merge_camera c d) cameras d), Ok tt).
Proof.
  revert d. induction cameras as [|c cameras IH]; intros d; simpl.
  - reflexivity.
  - unfold merge_cameras in *. simpl. unfold bind, modify_data at 1. simpl.
    apply IH.
Qed.

Lemma keys_merge_camera c d :
  keys (merge_camera c d) =
  if mem (cd_id c) d then keys d else keys d ++ [cd_id c].
Proof.
  unfold merge_camera. destruct (mem (cd_id c) d) eqn:E.
  - apply keys_alter.
  - apply keys_set_item_new. now apply mem_false.
Qed.

Lemma In_keys_merge_camera k c d :
  In k (keys (merge_camera c d)) <-> In k (keys d) \/ k = cd_id c.
Proof.
  rewrite keys_merge_camera. destruct (mem (cd_id c) d) eqn:E.
  - apply mem_true in E. split; [tauto | intros [H | ->]; assumption].
  - rewrite in_app_iff. simpl. intuition congruence.
Qed.

Lemma In_keys_merged k cameras d :
  In k (keys (fold_left (fun d c => merge_camera c d) cameras d)) <->
  In k (keys d) \/ In k (map cd_id cameras).
Proof.
  revert d. induction cameras as [|c cameras IH]; intros d; simpl.
  - tauto.
  - rewrite IH, In_keys_merge_camera. intuition congruence.
Qed.

Lemma NoDup_keys_merged cameras d :
  NoDup (keys d) ->
  NoDup (keys (fold_left (fun d c => merge_camera c d) cameras d)).
Proof.
  revert d. induction cameras as [|c cameras IH]; intros d H; simpl.
  - exact H.
  - apply IH. rewrite keys_merge_camera.
    destruct (mem (cd_id c) d) eqn:E; [exact H|].
    apply mem_false, lookup_None_keys in E.
    apply NoDup_app; [exact H | constructor; [intros [] | constructor] |].
    intros x Hx [<-|[]]. contradiction.
Qed.

Lemma bare_merge_camera c d :
  Forall bare (values d) -> Forall bare (values (merge_camera c d)).
Proof.
  unfold merge_camera, values.
  destruct (mem (cd_id c) d); induction d as [|[k v] d IH]; simpl; intros H.
  - constructor.
  - inversion H; subst. destruct (cd_id c =? k); simpl.
    + constructor; [|assumption]. unfold bare in *. simpl. assumption.
    + constructor; [assumption | now apply IH].
  - repeat constructor.
  - inversion H; subst. destruct (cd_id c =? k); simpl.
    + constructor; [|assumption]. split; reflexivity.
    + constructor; [assumption | now apply IH].
Qed.

Lemma bare_merged cameras d :
  Forall bare (values d) ->
  Forall bare (values (fold_left (fun d c => merge_camera c d) cameras d)).
Proof.
  revert d. induction cameras as [|c cameras IH]; intros d H; simpl.
  - exact H.
  - apply IH, bare_merge_camera, H.
Qed.

Lemma bare_listed cameras : Forall bare (values (listed cameras)).
Proof. apply bare_merged. constructor. Qed.

Lemma without_motion_bare d :
  Forall bare (values d) -> without_motion d = d.
Proof.
  induction d as [|[k [cd m lv]] d IH]; intros H; [reflexivity|].
  inversion H as [|? ? [Hm _] Hd]; subst. simpl in Hm. subst m.
  change (without_motion ((k, mkSynoCamera cd None lv) :: d))
    with ((k, mkSynoCamera cd None lv) :: without_motion d).
  now rewrite IH.
Qed.

Lemma In_keys_listed k cameras :
  In k (keys (listed cameras)) <-> In k (map cd_id cameras).
Proof.
  unfold listed. rewrite In_keys_merged. simpl. tauto.
Qed.

Lemma NoDup_keys_listed cameras : NoDup (keys (listed cameras)).
Proof. apply NoDup_keys_merged. constructor. Qed.

Lemma listed_nonempty cameras :
  cameras <> [] -> is_empty (listed cameras) = false.
Proof.
  intros H. destruct cameras as [|c cameras]; [congruence|].
  destruct (is_empty (listed (c :: cameras))) eqn:E; [|reflexivity].
  apply is_empty_keys in E.
  assert (I : In (cd_id c) (keys (listed (c :: cameras)))).
  { apply In_keys_listed. now left. }
  rewrite E in I. destruct I.
Qed.

Lemma listed_empty_inv cameras :
  is_empty (listed cameras) = true -> cameras = [].
Proof.
  intros H. destruct cameras as [|c cameras]; [reflexivity|].
  rewrite listed_nonempty in H; [discriminate | congruence].
Qed.

End ListStep.

(* ===================================================================== *)
(** ** The motion step *)
(* ===================================================================== *)

Section MotionStep.
Import Registry RegistryFacts.

Lemma without_motion_alter x j d :
  without_motion (alter (update_motion_detection x) j d) = without_motion d.
Proof.
  unfold without_motion.
  induction d as [|[k v] d IH]; simpl; [reflexivity|].
  destruct (j =? k); simpl; [reflexivity | now rewrite IH].
Qed.

Lemma update_motion_step_ok j ids b l d raw x :
  b (motion_request j) = inr raw -> resp_data raw = Some x ->
  update_motion (j :: ids) (station b l d) =
  update_motion ids
    (station b (l ++ [motion_request j]) (alter (update_motion_detection x) j d)).
Proof.
  intros Hb Hx. unfold update_motion. simpl.
  unfold bind at 1. unfold bind at 1.
  unfold motion_request in Hb. rewrite (dsm_get_ok _ _ _ _ _ _ _ _ Hb).
  unfold bind at 1. unfold lift, getitem_data. rewrite Hx. reflexivity.
Qed.

Lemma update_motion_step_fail j ids b l d f :
  b (motion_request j) = inl f ->
  update_motion (j :: ids) (station b l d) =
  (station b (l ++ [motion_request j]) d, Raise (TransportError f)).
Proof.
  intros Hb. unfold update_motion. simpl.
  unfold bind at 1. unfold bind at 1.
  unfold motion_request in Hb. rewrite (dsm_get_fail _ _ _ _ _ _ _ _ Hb).
  reflexivity.
Qed.

Lemma update_motion_step_nodata j ids b l d raw :
  b (motion_request j) = inr raw -> resp_data raw = None ->
  update_motion (j :: ids) (station b l d) =
  (station b (l ++ [motion_request j]) d, Raise (KeyError (PStr "data"))).
Proof.
  intros Hb Hx. unfold update_motion. simpl.
  unfold bind at 1. unfold bind at 1.
  unfold motion_request in Hb. rewrite (dsm_get_ok _ _ _ _ _ _ _ _ Hb).
  unfold bind at 1. unfold lift, getitem_data. rewrite Hx. reflexivity.
Qed.

(** Every run of the motion loop: it either serves all ids, or stops at the
    first id whose request fails or whose response lacks ["data"]. *)
Lemma update_motion_run ids b d :
  exists d', without_motion d' = without_motion d /\
    (((forall l, update_motion ids (station b l d) =
        (station b (l ++ map motion_request ids) d', Ok tt)) /\
      forall j, In j ids -> motion_ok b j)
     \/
     exists before k after e,
       ids = before ++ k :: after /\
       (forall l, update_motion ids (station b l d) =
         (station b (l ++ map motion_request (before ++ [k])) d', Raise e)) /\
       (forall j, In j before -> motion_ok b j) /\
       motion_stop b k e /\
       (~ In k before -> lookup k d' = lookup k d)).
Proof.
  revert d. induction ids as [|j ids IH]; intros d.
  - exists d. split; [reflexivity|]. left. split.
    + intros l. simpl. now rewrite app_nil_r.
    + intros j [].
  - destruct (b (motion_request j)) as [f|raw] eqn:Hb.
    + exists d. split; [reflexivity|]. right.
      exists [], j, ids, (TransportError f). simpl.
      repeat split; eauto using update_motion_step_fail.
      * intros j' [].
      * left. eauto.
    + destruct (resp_data raw) as [x|] eqn:Hx.
      * destruct (IH (alter (update_motion_detection x) j d))
          as (d' & Hw & [[Hrun Hall] | (before & k & after & e & -> & Hrun & Hall & He & Hk)]).
        -- exists d'. split; [now rewrite Hw, without_motion_alter|]. left. split.
           ++ intros l. rewrite (update_motion_step_ok _ _ _ _ _ _ _ Hb Hx).
              rewrite Hrun. simpl. now rewrite <- app_assoc.
           ++ intros j' [<-|I]; [exists raw, x; tauto | auto].
        -- exists d'. split; [now rewrite Hw, without_motion_alter|]. right.
           exists (j :: before), k, after, e. repeat split.
           ++ intros l. rewrite (update_motion_step_ok _ _ _ _ _ _ _ Hb Hx).
              rewrite Hrun. simpl. now rewrite <- app_assoc.
           ++ intros j' [<-|I]; [exists raw, x; tauto | auto].
           ++ exact He.
           ++ intros N. rewrite Hk by (intros I; apply N; now right).
              rewrite lookup_alter. destruct (Z.eqb_spec k j) as [->|]; [|reflexivity].
              exfalso. apply N. now left.
      * exists d. split; [reflexivity|]. right.
        exists [], j, ids, (KeyError (PStr "data")). simpl.
        repeat split; eauto using update_motion_step_nodata.
        -- intros j' [].
        -- right. eauto.
Qed.

End MotionStep.

(* ===================================================================== *)
(** ** The live-view step *)
(* ===================================================================== *)

Section LiveViewStep.
Import Registry RegistryFacts.

Lemma keys_applied records d :
  keys (fold_left apply_record records d) = keys d.
Proof.
  revert d. induction records as [|r records IH]; intros d; simpl.
  - reflexivity.
  - rewrite IH. apply keys_alter.
Qed.

Lemma without_motion_keys d : keys (without_motion d) = keys d.
Proof.
  unfold keys, without_motion. rewrite map_map. reflexivity.
Qed.

(** What the apply loop leaves under a key: the same entry, holding
    live-view data if it did before or if some record carried its id. *)
Lemma lookup_applied k records d c' :
  lookup k (fold_left apply_record records d) = Some c' ->
  exists c, lookup k d = Some c /\
    camera_data c' = camera_data c /\
    motion_detection_enabled c' = motion_detection_enabled c /\
    (has_live_view c' = true <->
     has_live_view c = true \/ In k (map lvd_id records)).
Proof.
  revert d. induction records as [|r records IH]; intros d; simpl.
  - intros H. exists c'. intuition.
  - intros H. destruct (IH _ H) as (c1 & H1 & Hd & Hm & Hl).
    unfold apply_record in H1. rewrite lookup_alter in H1.
    destruct (Z.eqb_spec k (lvd_id r)) as [->|Hk].
    + destruct (lookup (lvd_id r) d) as [c|]; [|discriminate].
      simpl in H1. injection H1 as <-. exists c. repeat split; try assumption.
      * intros _. right. now left.
      * intros _. apply Hl. now left.
    + exists c1. repeat split; try assumption.
      * intros T. apply Hl in T. intuition.
      * intros [T|[E|I]]; apply Hl; [tauto | congruence | tauto].
Qed.

Lemma apply_live_views_step_ok r records b l d :
  In (lvd_id r) (keys d) ->
  apply_live_views (r :: records) (station b l d) =
  apply_live_views records (station b l (apply_record d r)).
Proof.
  intros I. apply lookup_Some_keys in I. destruct I as [c Hc].
  unfold apply_live_views. simpl.
  unfold bind at 1. unfold bind at 1. simpl. rewrite Hc. reflexivity.
Qed.

Lemma apply_live_views_step_missing r records b l d :
  ~ In (lvd_id r) (keys d) ->
  apply_live_views (r :: records) (station b l d) =
  (station b l d, Raise (KeyError (PInt (lvd_id r)))).
Proof.
  intros N. apply lookup_None_keys in N.
  unfold apply_live_views. simpl.
  unfold bind at 1. unfold bind at 1. simpl. rewrite N. reflexivity.
Qed.

(** Every run of the apply loop: it either applies all records, each
    to a key of the registry, or stops at the first record whose id is
    no key. *)
Lemma apply_live_views_run records b d :
  ((forall r, In r records -> In (lvd_id r) (keys d)) /\
   forall l, apply_live_views records (station b l d) =
     (station b l (fold_left apply_record records d), Ok tt))
  \/
  exists before r after,
    records = before ++ r :: after /\
    (forall r', In r' before -> In (lvd_id r') (keys d)) /\
    ~ In (lvd_id r) (keys d) /\
    forall l, apply_live_views records (station b l d) =
      (station b l (fold_left apply_record before d),
       Raise (KeyError (PInt (lvd_id r)))).
Proof.
  revert d. induction records as [|r records IH]; intros d.
  - left. split; [intros r [] | reflexivity].
  - destruct (in_dec Z.eq_dec (lvd_id r) (keys d)) as [I|N].
    + assert (K : keys (apply_record d r) = keys d) by apply keys_alter.
      destruct (IH (apply_record d r))
        as [[Hall Hrun] | (before & r0 & after & -> & Hall & Hno & Hrun)].
      * left. split.
        -- intros r' [<-|I']; [exact I | rewrite <- K; auto].
        -- intros l. rewrite (apply_live_views_step_ok _ _ _ _ _ I). apply Hrun.
      * right. exists (r :: before), r0, after. repeat split.
        -- intros r' [<-|I']; [exact I | rewrite <- K; auto].
        -- now rewrite <- K.
        -- intros l. rewrite (apply_live_views_step_ok _ _ _ _ _ I). apply Hrun.
    + right. exists [], r, records. repeat split.
      * intros r' [].
      * exact N.
      * intros l. now apply apply_live_views_step_missing.
Qed.

Lemma fetch_live_views_empty b l :
  fetch_live_views (station b l []) = (station b l [], Ok tt).
Proof. reflexivity. Qed.

Lemma fetch_live_views_fail b l d f :
  is_empty d = false ->
  b (live_view_request (id_list d)) = inl f ->
  fetch_live_views (station b l d) =
  (station b (l ++ [live_view_request (id_list d)]) d, Raise (TransportError f)).
Proof.
  intros E Hb. unfold fetch_live_views.
  unfold bind at 1. simpl. rewrite E.
  unfold bind at 1. unfold live_view_request in Hb.
  now rewrite (dsm_get_fail _ _ _ _ _ _ _ _ Hb).
Qed.

Lemma fetch_live_views_undecoded b l d raw e :
  is_empty d = false ->
  b (live_view_request (id_list d)) = inr raw ->
  live_view_records raw = Raise e ->
  fetch_live_views (station b l d) =
  (station b (l ++ [live_view_request (id_list d)]) d, Raise e).
Proof.
  intros E Hb Hr. unfold fetch_live_views.
  unfold bind at 1. simpl. rewrite E.
  unfold bind at 1. unfold live_view_request in Hb.
  rewrite (dsm_get_ok _ _ _ _ _ _ _ _ Hb).
  unfold live_view_records in Hr. unfold bind at 1. unfold lift at 1.
  destruct (getitem_data raw) as [data|e'].
  - unfold bind at 1. unfold lift at 1. now rewrite Hr.
  - injection Hr as ->. reflexivity.
Qed.

Lemma fetch_live_views_decoded b l d raw records :
  is_empty d = false ->
  b (live_view_request (id_list d)) = inr raw ->
  live_view_records raw = Ok records ->
  fetch_live_views (station b l d) =
  apply_live_views records (station b (l ++ [live_view_request (id_list d)]) d).
Proof.
  intros E Hb Hr. unfold fetch_live_views.
  unfold bind at 1. simpl. rewrite E.
  unfold bind at 1. unfold live_view_request in Hb.
  rewrite (dsm_get_ok _ _ _ _ _ _ _ _ Hb).
  unfold live_view_records in Hr. unfold bind at 1. unfold lift at 1.
  destruct (getitem_data raw) as [data|e']; [|discriminate].
  unfold bind at 1. unfold lift at 1. now rewrite Hr.
Qed.

Lemma live_view_records_error raw e :
  live_view_records raw = Raise e ->
  e = KeyError (PStr "data") \/ e = TypeError.
Proof.
  unfold live_view_records, getitem_data.
  destruct (resp_data raw) as [[| | | |[|]]|]; simpl; intros H;
    try discriminate; injection H as <-; auto.
Qed.

End LiveViewStep.

(* ===================================================================== *)
(** ** One update cycle *)
(* ===================================================================== *)

Section Cycle.
Import Registry RegistryFacts.

Lemma update_list_fail b l d f :
  b list_request = inl f ->
  update (station b l d) =
  (station b (l ++ [list_request]) [], Raise (TransportError f)).
Proof.
  intros Hb. unfold update.
  rewrite (bind_ok _ _ _ _ _ (modify_data_run _ b l d)).
  now rewrite (bind_raise _ _ _ _ _ (dsm_get_fail _ _ _ _ _ _ _ _ Hb)).
Qed.

Lemma update_list_undecoded b l d raw e :
  b list_request = inr raw ->
  list_cameras raw = Raise e ->
  update (station b l d) = (station b (l ++ [list_request]) [], Raise e).
Proof.
  intros Hb Hc. unfold update.
  rewrite (bind_ok _ _ _ _ _ (modify_data_run _ b l d)).
  rewrite (bind_ok _ _ _ _ _ (dsm_get_ok _ _ _ _ _ _ _ _ Hb)).
  unfold list_cameras in Hc.
  destruct (getitem_data raw) as [data|e'] eqn:Hd.
  - rewrite (bind_ok _ _ _ _ _ (lift_run (Ok data) _)). rewrite Hc.
    now rewrite (bind_raise _ _ _ _ _ (lift_run (Raise e) _)).
  - injection Hc as ->.
    now rewrite (bind_raise _ _ _ _ _ (lift_run (Raise e) _)).
Qed.

Lemma update_list_decoded b l d raw cameras :
  b list_request = inr raw ->
  list_cameras raw = Ok cameras ->
  update (station b l d) =
  bind (update_motion (keys (listed cameras))) (fun _ => fetch_live_views)
    (station b (l ++ [list_request]) (listed cameras)).
Proof.
  intros Hb Hc. unfold update.
  rewrite (bind_ok _ _ _ _ _ (modify_data_run _ b l d)).
  rewrite (bind_ok _ _ _ _ _ (dsm_get_ok _ _ _ _ _ _ _ _ Hb)).
  unfold list_cameras in Hc.
  destruct (getitem_data raw) as [data|e'] eqn:Hd; [|discriminate].
  rewrite (bind_ok _ _ _ _ _ (lift_run (Ok data) _)).
  rewrite Hc.
  rewrite (bind_ok _ _ _ _ _ (lift_run (Ok cameras) _)).
  rewrite (bind_ok _ _ _ _ _ (merge_cameras_run _ _ _ _)).
  reflexivity.
Qed.

Lemma keys_of_without_motion d1 d0 :
  without_motion d1 = d0 -> keys d1 = keys d0.
Proof. intros <-. symmetry. apply without_motion_keys. Qed.

Lemma is_empty_of_keys d1 d0 :
  keys d1 = keys d0 -> is_empty d1 = is_empty d0.
Proof. destruct d1, d0; simpl; congruence. Qed.

(** Every call of [update()] goes one of the ways of [Run], and which one
    depends on the backend alone: neither on the registry the object held
    nor on the requests it sent before. *)
Theorem update_run b :
  exists reqs d' r,
    Run b reqs d' r /\
    forall l d, update (station b l d) = (station b (l ++ reqs) d', r).
Proof.
  destruct (b list_request) as [f|raw] eqn:Hb.
  { exists [list_request], [], (Raise (TransportError f)). split.
    - now apply RunListFail.
    - intros l d. now apply update_list_fail. }
  destruct (list_cameras raw) as [cameras|e] eqn:Hc.
  2:{ exists [list_request], [], (Raise e). split.
      - now apply RunListUndecoded with raw.
      - intros l d. now apply update_list_undecoded with raw. }
  destruct (update_motion_run (keys (listed cameras)) b (listed cameras))
    as (d1 & Hw & [[Hrun Hall] | (before & k & after & e & Hids & Hrun & Hall & He & Hk)]).
  2:{ rewrite (without_motion_bare _ (bare_listed cameras)) in Hw.
      exists (list_request :: map motion_request (before ++ [k])), d1, (Raise e).
      split.
      - apply RunMotionStop with raw cameras after; try assumption.
        apply Hk. intros I.
        pose proof (NoDup_keys_listed cameras) as N. rewrite Hids in N.
        apply NoDup_remove_2 in N. apply N, in_or_app. now left.
      - intros l d. rewrite (update_list_decoded _ _ _ _ _ Hb Hc).
        rewrite (bind_raise _ _ _ _ _ (Hrun _)).
        now rewrite <- app_assoc. }
  rewrite (without_motion_bare _ (bare_listed cameras)) in Hw.
  pose proof (keys_of_without_motion _ _ Hw) as K.
  assert (Hall' : forall j, In j (keys d1) -> motion_ok b j).
  { intros j I. apply Hall. now rewrite <- K. }
  assert (Hpre : forall l d,
    update (station b l d) =
    fetch_live_views
      (station b (l ++ list_request :: map motion_request (keys d1)) d1)).
  { intros l d. rewrite (update_list_decoded _ _ _ _ _ Hb Hc).
    rewrite (bind_ok _ _ _ _ _ (Hrun _)). rewrite <- app_assoc, K. reflexivity. }
  destruct cameras as [|c cameras].
  { assert (d1 = []) as ->.
    { destruct d1; [reflexivity | discriminate K]. }
    exists [list_request], [], (Ok tt). split.
    - now apply RunEmpty with raw.
    - intros l d. rewrite Hpre. reflexivity. }
  assert (Hne : c :: cameras <> []) by discriminate.
  assert (E : is_empty d1 = false).
  { rewrite (is_empty_of_keys _ _ K). now apply listed_nonempty. }
  assert (Hlog : forall l,
    (l ++ list_request :: map motion_request (keys d1))
      ++ [live_view_request (id_list d1)] = l ++ full_cycle d1).
  { intros l. unfold full_cycle. rewrite <- app_assoc. reflexivity. }
  destruct (b (live_view_request (id_list d1))) as [f|live] eqn:Hl.
  { exists (full_cycle d1), d1, (Raise (TransportError f)). split.
    - now apply RunLiveFail with raw (c :: cameras).
    - intros l d. rewrite Hpre, (fetch_live_views_fail _ _ _ _ E Hl).
      now rewrite Hlog. }
  destruct (live_view_records live) as [records|e] eqn:Hr.
  2:{ exists (full_cycle d1), d1, (Raise e). split.
      - now apply RunLiveUndecoded with raw (c :: cameras) live.
      - intros l d. rewrite Hpre, (fetch_live_views_undecoded _ _ _ _ _ E Hl Hr).
        now rewrite Hlog. }
  destruct (apply_live_views_run records b d1)
    as [[Hin Happ] | (before & r & after & -> & Hin & Hno & Happ)].
  - exists (full_cycle d1), (fold_left apply_record records d1), (Ok tt). split.
    + now apply RunApplied with raw (c :: cameras) live.
    + intros l d. rewrite Hpre, (fetch_live_views_decoded _ _ _ _ _ E Hl Hr).
      now rewrite Happ, Hlog.
  - exists (full_cycle d1), (fold_left apply_record before d1),
      (Raise (KeyError (PInt (lvd_id r)))). split.
    + now apply RunLiveMissing with raw (c :: cameras) live after.
    + intros l d. rewrite Hpre, (fetch_live_views_decoded _ _ _ _ _ E Hl Hr).
      now rewrite Happ, Hlog.
Qed.

End Cycle.

(* ===================================================================== *)
(** ** Reading a cycle off [Run] *)
(* ===================================================================== *)

Section RunFacts.
Import Registry RegistryFacts.

Lemma update_run_self self :
  exists reqs d' r,
    Run (backend (_dsm self)) reqs d' r /\
    update self =
      (station (backend (_dsm self)) (sent (_dsm self) ++ reqs) d', r).
Proof.
  destruct (update_run (backend (_dsm self))) as (reqs & d' & r & HR & Hu).
  exists reqs, d', r. split; [exact HR|].
  rewrite (station_eta self) at 1. apply Hu.
Qed.

Lemma motion_stop_not_ok b k e : motion_stop b k e -> ~ motion_ok b k.
Proof.
  intros [(f & Hf & _) | (raw & Hr & Hn & _)] (raw' & x & Hb & Hx); congruence.
Qed.

Lemma lookup_without_motion k d :
  lookup k (without_motion d) = option_map forget_motion (lookup k d).
Proof.
  induction d as [|[k' v] d IH]; simpl; [reflexivity|].
  destruct (k =? k'); [reflexivity | exact IH].
Qed.

Lemma lookup_In_values k d c : lookup k d = Some c -> In c (values d).
Proof.
  unfold values. induction d as [|[k' v] d IH]; simpl; [discriminate|].
  destruct (k =? k'); [intros [= ->]; now left | right; auto].
Qed.

(** An entry of a registry that is the listed one up to motion flags holds
    no live-view data and the list record of its listed counterpart. *)
Lemma listed_entry d1 cameras k c :
  without_motion d1 = listed cameras ->
  lookup k d1 = Some c ->
  live_view c = None /\ lookup k (listed cameras) = Some (forget_motion c).
Proof.
  intros Hw Hc.
  assert (L : lookup k (listed cameras) = Some (forget_motion c)).
  { rewrite <- Hw, lookup_without_motion, Hc. reflexivity. }
  split; [|exact L].
  pose proof (bare_listed cameras) as B. rewrite Forall_forall in B.
  destruct (B _ (lookup_In_values _ _ _ L)) as [_ Hl]. exact Hl.
Qed.

Lemma live_view_None_values d1 cameras :
  without_motion d1 = listed cameras ->
  Forall (fun c => live_view c = None) (values d1).
Proof.
  intros Hw. pose proof (bare_listed cameras) as B. rewrite <- Hw in B.
  unfold values, without_motion in *. rewrite map_map in B. simpl in B.
  rewrite Forall_map in *. revert B. apply Forall_impl.
  intros [k c] [_ H]. exact H.
Qed.

Lemma id_list_keys d d' : keys d = keys d' -> id_list d = id_list d'.
Proof. unfold id_list. now intros ->. Qed.

Lemma full_cycle_keys d d' : keys d = keys d' -> full_cycle d = full_cycle d'.
Proof.
  intros K. unfold full_cycle. now rewrite K, (id_list_keys _ _ K).
Qed.

Lemma filter_full_cycle d :
  filter is_live_view_request (full_cycle d) = [live_view_request (id_list d)].
Proof.
  unfold full_cycle. simpl. rewrite filter_app. simpl.
  induction (keys d) as [|k ks IH]; simpl; [reflexivity | exact IH].
Qed.

Lemma list_cameras_Ok raw cameras :
  list_cameras raw = Ok cameras <-> resp_data raw = Some (DCameras cameras).
Proof.
  unfold list_cameras, getitem_data.
  destruct (resp_data raw) as [[]|]; simpl; split; intros H;
    try discriminate; congruence.
Qed.

Lemma list_cameras_error raw e :
  list_cameras raw = Raise e ->
  e = KeyError (PStr "data") \/ e = KeyError (PStr "cameras") \/ e = TypeError.
Proof.
  unfold list_cameras, getitem_data.
  destruct (resp_data raw) as [[]|]; simpl; intros H;
    try discriminate; injection H as <-; auto.
Qed.

(** The first element of a list that fails a test is determined. *)
Lemma first_stop_unique {A} (P : A -> Prop) before k after before' k' after' :
  before ++ k :: after = before' ++ k' :: after' ->
  (forall x, In x before -> P x) -> ~ P k ->
  (forall x, In x before' -> P x) -> ~ P k' ->
  before = before' /\ k = k' /\ after = after'.
Proof.
  revert before'. induction before as [|x before IH]; intros [|x' before'] E HB Hk HB' Hk';
    simpl in E; injection E as E1 E2; subst.
  - auto.
  - exfalso. apply Hk, HB'. now left.
  - exfalso. apply Hk', HB. now left.
  - destruct (IH before' E2) as (-> & -> & ->); auto.
    + intros y I. apply HB. now right.
    + intros y I. apply HB'. now right.
Qed.

(** Every cycle starts with the list request. *)
Lemma Run_first b reqs d' r :
  Run b reqs d' r -> exists rest, reqs = list_request :: rest.
Proof. intros H. destruct H; unfold full_cycle; eauto. Qed.

(** Whatever a cycle leaves in the registry was listed by the backend. *)
Lemma Run_keys b reqs d' r :
  Run b reqs d' r ->
  forall k, In k (keys d') ->
  exists raw cameras,
    b list_request = inr raw /\ list_cameras raw = Ok cameras /\
    In k (map cd_id cameras).
Proof.
  intros H k I.
  destruct H; try (now destruct I);
    try rewrite keys_applied in I;
    exists raw, cameras; repeat split; try assumption;
    apply In_keys_listed;
    match goal with
    | Hw : without_motion _ = listed _ |- _ =>
        rewrite <- (keys_of_without_motion _ _ Hw); exact I
    end.
Qed.

End RunFacts.

(* ===================================================================== *)
(** ** The update cycle: what the registry holds afterwards *)
(* ===================================================================== *)

Section UpdateClaims.
Import Registry RegistryFacts.

(** C1, as stated, fails: a cycle can complete while a listed camera is
    left without live-view data.  The backend lists the porch camera and
    answers [GetLiveViewPath] with no record at all; [update()] returns
    normally and the porch entry holds no live-view data. *)
Lemma update_live_view_not_always_populated :
  ~ (forall self self' raw cameras,
       backend (_dsm self) list_request = inr raw ->
       resp_data raw = Some (DCameras cameras) ->
       cameras <> [] ->
       update self = (self', Ok tt) ->
       forall c, In c cameras ->
         exists camera,
           lookup (cd_id c) (_data self') = Some camera /\
           has_live_view camera = true).
Proof.
  intros H.
  pose (self := station (serving [porch] []) [] []).
  destruct (H self (fst (update self)) _ [porch] eq_refl eq_refl
              ltac:(discriminate) eq_refl porch (or_introl eq_refl))
    as (camera & Hc & Hl).
  vm_compute in Hc. injection Hc as <-. discriminate Hl.
Qed.

(** C1 (amended): when the list response holds at least one camera and
    [update()] returns normally, every listed id is a key of the registry,
    the call sent exactly one [GetLiveViewPath] request, carrying the
    comma-joined ids of all registry keys, and an entry holds live-view data
    exactly when the response to that request has a record with its id. *)
Theorem update_registers_listed_cameras self self' raw cameras :
  backend (_dsm self) list_request = inr raw ->
  resp_data raw = Some (DCameras cameras) ->
  cameras <> [] ->
  update self = (self', Ok tt) ->
  exists live records,
    backend (_dsm self) (live_view_request (id_list (_data self'))) = inr live /\
    live_view_records live = Ok records /\
    sent (_dsm self') = sent (_dsm self) ++ full_cycle (_data self') /\
    filter is_live_view_request (full_cycle (_data self')) =
      [live_view_request (join "," (map py_str_int (keys (_data self'))))] /\
    forall c, In c cameras ->
      exists camera,
        lookup (cd_id c) (_data self') = Some camera /\
        (has_live_view camera = true <-> In (cd_id c) (map lvd_id records)).
Proof.
  intros Hb Hd Hne Hu. apply list_cameras_Ok in Hd.
  destruct (update_run_self self) as (reqs & d' & r & HR & Hu').
  rewrite Hu in Hu'. injection Hu' as -> <-.
  inversion HR as [| | |raw0 Hb0 Hc0| | |raw0 cameras0 d1 live records Hb0 Hc0 Hne0 Hw Hm Hl Hr Hin|];
    subst.
  - rewrite Hb in Hb0. injection Hb0 as <-. congruence.
  - rewrite Hb in Hb0. injection Hb0 as <-.
    rewrite Hd in Hc0. injection Hc0 as <-.
    pose proof (keys_applied records d1) as K.
    exists live, records. unfold station. cbn [_data _dsm sent].
    fold (id_list (fold_left apply_record records d1)).
    rewrite (id_list_keys _ _ K), (full_cycle_keys _ _ K).
    repeat split; try assumption.
    + apply filter_full_cycle.
    + intros c Hc.
      assert (I : In (cd_id c) (keys (fold_left apply_record records d1))).
      { rewrite K, (keys_of_without_motion _ _ Hw). apply In_keys_listed.
        now apply in_map. }
      apply lookup_Some_keys in I. destruct I as [camera Hcam].
      exists camera. split; [exact Hcam|].
      destruct (lookup_applied _ _ _ _ Hcam) as (c0 & Hc0 & _ & _ & Hiff).
      destruct (listed_entry _ _ _ _ Hw Hc0) as [Hnone _].
      rewrite Hiff. unfold has_live_view. rewrite Hnone.
      split; [intros [T|T]; [discriminate | exact T] | auto].
Qed.

(** A backend that serves two cameras and answers the live-view request
    for both of them. *)
Lemma update_registers_listed_cameras_witness :
  exists self',
    update (station (serving [porch; garage] [garage_paths; porch_paths]) [] [])
      = (self', Ok tt) /\
    exists live records,
      serving [porch; garage] [garage_paths; porch_paths]
        (live_view_request (id_list (_data self'))) = inr live /\
      live_view_records live = Ok records /\
      sent (_dsm self') = [] ++ full_cycle (_data self') /\
      filter is_live_view_request (full_cycle (_data self')) =
        [live_view_request (join "," (map py_str_int (keys (_data self'))))] /\
      forall c, In c [porch; garage] ->
        exists camera,
          lookup (cd_id c) (_data self') = Some camera /\
          (has_live_view camera = true <-> In (cd_id c) (map lvd_id records)).
Proof.
  eexists. split; [vm_compute; reflexivity|].
  apply (update_registers_listed_cameras
           (station (serving [porch; garage] [garage_paths; porch_paths]) [] [])
           _ (mkResponse (Some true) (Some (DCameras [porch; garage])))
           [porch; garage]).
  - reflexivity.
  - reflexivity.
  - discriminate.
  - vm_compute. reflexivity.
Defined.

(** C2: when the list response holds no camera, [update()] returns normally
    after the list step: the registry is empty and the list request is the
    only request the call sent, so no [GetLiveViewPath] request is issued. *)
Theorem update_empty_list self raw :
  backend (_dsm self) list_request = inr raw ->
  resp_data raw = Some (DCameras []) ->
  exists self',
    update self = (self', Ok tt) /\
    _data self' = [] /\
    sent (_dsm self') = sent (_dsm self) ++ [list_request] /\
    filter is_live_view_request [list_request] = [].
Proof.
  intros Hb Hd. apply list_cameras_Ok in Hd.
  exists (station (backend (_dsm self)) (sent (_dsm self) ++ [list_request]) []).
  repeat split.
  rewrite (station_eta self) at 1.
  rewrite (update_list_decoded _ _ _ _ _ Hb Hd). reflexivity.
Qed.

Lemma update_empty_list_witness :
  exists self',
    update (station (serving [] [attic_paths]) [] [(1, SynoCamera_new porch)])
      = (self', Ok tt) /\
    _data self' = [] /\
    sent (_dsm self') = [] ++ [list_request] /\
    filter is_live_view_request [list_request] = [].
Proof.
  apply (update_empty_list
           (station (serving [] [attic_paths]) [] [(1, SynoCamera_new porch)])
           (mkResponse (Some true) (Some (DCameras [])))).
  - reflexivity.
  - reflexivity.
Defined.

(** Two answers of the backend to one request, or two decodings of one
    response, are the same answer. *)
Ltac same_answers :=
  repeat match goal with
  | H1 : ?b ?q = _, H2 : ?b ?q = _ |- _ =>
      lazymatch type of q with Request => idtac | Response => idtac end;
      rewrite H1 in H2;
      first [ discriminate H2 | injection H2 as H2; subst ]
  end.

(** C3: a transport failure of any of the three backend calls leaves
    [update()] as that very failure, and the registry stays as the cycle had
    built it so far.  A failed list call leaves the freshly assigned empty
    registry.  A failed [MotionEnum] call for camera [k] (the calls for the
    cameras before it having been answered) and a failed [GetLiveViewPath]
    call both leave the entries the list step created, in the same order and
    with the same list records, none of them holding live-view data; in the
    former case the entry of [k] holds no motion data either. *)
Theorem update_failure_not_rolled_back self f :
  let b := backend (_dsm self) in
  (b list_request = inl f ->
   exists self',
     update self = (self', Raise (TransportError f)) /\
     _data self' = [])
  /\
  (forall raw cameras before k after,
     b list_request = inr raw ->
     resp_data raw = Some (DCameras cameras) ->
     keys (listed cameras) = before ++ k :: after ->
     (forall j, In j before -> motion_ok b j) ->
     b (motion_request k) = inl f ->
     exists self' camera,
       update self = (self', Raise (TransportError f)) /\
       without_motion (_data self') = listed cameras /\
       Forall (fun c => live_view c = None) (values (_data self')) /\
       lookup k (_data self') = Some camera /\
       motion_detection_enabled camera = None)
  /\
  (forall raw cameras,
     b list_request = inr raw ->
     resp_data raw = Some (DCameras cameras) ->
     cameras <> [] ->
     (forall j, In j (keys (listed cameras)) -> motion_ok b j) ->
     b (live_view_request (id_list (listed cameras))) = inl f ->
     exists self',
       update self = (self', Raise (TransportError f)) /\
       without_motion (_data self') = listed cameras /\
       Forall (fun c => live_view c = None) (values (_data self'))).
Proof.
  intros b. subst b.
  destruct (update_run_self self) as (reqs & d' & r & HR & Hu).
  split; [|split].
  - intros Hb.
    exists (station (backend (_dsm self)) (sent (_dsm self) ++ [list_request]) []).
    split; [|reflexivity].
    rewrite (station_eta self) at 1. now apply update_list_fail.
  - intros raw cameras before k after Hb Hd Hk Hall Hf.
    apply list_cameras_Ok in Hd.
    assert (Hno : ~ motion_ok (backend (_dsm self)) k).
    { intros (raw' & x & Hb' & _). congruence. }
    assert (Ik : In k (keys (listed cameras))).
    { rewrite Hk. apply in_or_app. right. now left. }
    rewrite Hu. clear Hu.
    inversion HR; subst; same_answers.
    + (* the motion step stopped *)
      match goal with
      | Hs : motion_stop _ ?k0 _, Hk0 : keys (listed _) = _ ++ ?k0 :: _ |- _ =>
          rewrite Hk in Hk0;
          destruct (first_stop_unique (motion_ok (backend (_dsm self)))
                      _ _ _ _ _ _ Hk0 Hall Hno ltac:(assumption)
                      (motion_stop_not_ok _ _ _ Hs)) as (<- & <- & <-);
          destruct Hs as [(f' & Hf' & ->) | (raw' & Hr' & _)]; [|congruence]
      end.
      assert (f' = f) as -> by congruence.
      apply lookup_Some_keys in Ik. destruct Ik as [c0 Hc0].
      match type of Hc0 with
      | lookup _ (listed ?cs) = _ =>
          pose proof (bare_listed cs) as B; rewrite Forall_forall in B
      end.
      destruct (B _ (lookup_In_values _ _ _ Hc0)) as [Hm0 _].
      eexists. exists c0. split; [reflexivity|].
      unfold station. cbn [_data].
      repeat split; try assumption.
      * eapply live_view_None_values; eassumption.
      * congruence.
    + (* no camera listed *)
      destruct before; discriminate Hk.
    + exfalso. apply Hno.
      match goal with Hm : forall j, In j (keys _) -> _ |- _ => apply Hm end.
      match goal with Hw : without_motion _ = _ |- _ =>
        now rewrite (keys_of_without_motion _ _ Hw) end.
    + exfalso. apply Hno.
      match goal with Hm : forall j, In j (keys _) -> _ |- _ => apply Hm end.
      match goal with Hw : without_motion _ = _ |- _ =>
        now rewrite (keys_of_without_motion _ _ Hw) end.
    + exfalso. apply Hno.
      match goal with Hm : forall j, In j (keys _) -> _ |- _ => apply Hm end.
      match goal with Hw : without_motion ?d = _ |- _ =>
        now rewrite (keys_of_without_motion _ _ Hw) end.
    + exfalso. apply Hno.
      match goal with Hm : forall j, In j (keys _) -> _ |- _ => apply Hm end.
      match goal with Hw : without_motion ?d = _ |- _ =>
        now rewrite (keys_of_without_motion _ _ Hw) end.
  - intros raw cameras Hb Hd Hne Hall Hf.
    apply list_cameras_Ok in Hd.
    rewrite Hu. clear Hu.
    inversion HR; subst; same_answers;
      try match goal with
      | Hw : without_motion ?d = listed _ |- _ =>
          pose proof (keys_of_without_motion _ _ Hw) as K;
          try rewrite <- (id_list_keys _ _ K) in Hf
      end; same_answers.
    + (* the motion step stopped: excluded, every request is answered *)
      exfalso.
      match goal with
      | Hs : motion_stop _ ?k0 _, Hk0 : keys (listed _) = _ |- _ =>
          apply (motion_stop_not_ok _ _ _ Hs), Hall; rewrite Hk0;
          apply in_or_app; right; now left
      end.
    + congruence.
    + eexists. split; [reflexivity|].
      unfold station. cbn [_data].
      split; [assumption|].
      eapply live_view_None_values; eassumption.
Qed.

(** Three backends that time out: on the list request, on the motion
    request of the garage camera, on the live-view request. *)
Lemma update_failure_not_rolled_back_witness :
  (exists self',
     update (station
               (timing_out (fun req => String.eqb (req_method req) "List")
                  (serving [porch] [porch_paths]))
               [] [(2, SynoCamera_new garage)])
       = (self', Raise (TransportError "timeout")) /\
     _data self' = [])
  /\
  (exists self' camera,
     update (station
               (timing_out (asks_motion_of 2)
                  (serving [porch; garage] [porch_paths; garage_paths]))
               [] [])
       = (self', Raise (TransportError "timeout")) /\
     without_motion (_data self') = listed [porch; garage] /\
     Forall (fun c => live_view c = None) (values (_data self')) /\
     lookup 2 (_data self') = Some camera /\
     motion_detection_enabled camera = None)
  /\
  (exists self',
     update (station
               (timing_out is_live_view_request
                  (serving [porch; garage] [porch_paths; garage_paths]))
               [] [])
       = (self', Raise (TransportError "timeout")) /\
     without_motion (_data self') = listed [porch; garage] /\
     Forall (fun c => live_view c = None) (values (_data self'))).
Proof.
  split; [|split].
  - apply (proj1 (update_failure_not_rolled_back
                    (station
                       (timing_out (fun req => String.eqb (req_method req) "List")
                          (serving [porch] [porch_paths]))
                       [] [(2, SynoCamera_new garage)])
                    "timeout")).
    reflexivity.
  - apply (proj1 (proj2 (update_failure_not_rolled_back
                    (station
                       (timing_out (asks_motion_of 2)
                          (serving [porch; garage] [porch_paths; garage_paths]))
                       [] [])
                    "timeout"))
             (mkResponse (Some true) (Some (DCameras [porch; garage])))
             [porch; garage] [1] 2 []).
    + reflexivity.
    + reflexivity.
    + reflexivity.
    + intros j [<-|[]]. do 2 eexists. split; reflexivity.
    + reflexivity.
  - apply (proj2 (proj2 (update_failure_not_rolled_back
                    (station
                       (timing_out is_live_view_request
                          (serving [porch; garage] [porch_paths; garage_paths]))
                       [] [])
                    "timeout"))
             (mkResponse (Some true) (Some (DCameras [porch; garage])))
             [porch; garage]).
    + reflexivity.
    + reflexivity.
    + discriminate.
    + intros j [<-|[<-|[]]]; do 2 eexists; split; reflexivity.
    + reflexivity.
Defined.

(** C4: [update()] starts from an empty registry and first sends the list
    request, whose [max_version] is 7.  What the call leaves therefore does
    not depend on what the registry held: every key it leaves is an id of
    the list response, and an id the registry held before the call that the
    list response does not carry is no key afterwards. *)
Theorem update_drops_stale_entries self self' r :
  update self = (self', r) ->
  (exists rest, sent (_dsm self') = sent (_dsm self) ++ list_request :: rest) /\
  req_max_version list_request = Some 7 /\
  update (station (backend (_dsm self)) (sent (_dsm self)) empty) = (self', r) /\
  (forall k, In k (keys (_data self')) ->
     exists raw cameras,
       backend (_dsm self) list_request = inr raw /\
       resp_data raw = Some (DCameras cameras) /\
       In k (map cd_id cameras)) /\
  (forall raw cameras k,
     backend (_dsm self) list_request = inr raw ->
     resp_data raw = Some (DCameras cameras) ->
     In k (keys (_data self)) ->
     ~ In k (map cd_id cameras) ->
     lookup k (_data self') = None).
Proof.
  intros Hu.
  destruct (update_run (backend (_dsm self))) as (reqs & d' & r0 & HR & Hall).
  pose proof (Hall (sent (_dsm self)) (_data self)) as Hu'.
  rewrite <- station_eta, Hu in Hu'. injection Hu' as -> ->.
  assert (Hkeys : forall k, In k (keys d') ->
     exists raw cameras,
       backend (_dsm self) list_request = inr raw /\
       resp_data raw = Some (DCameras cameras) /\
       In k (map cd_id cameras)).
  { intros k I. destruct (Run_keys _ _ _ _ HR k I) as (raw & cameras & Hb & Hc & Hin).
    exists raw, cameras. repeat split; try assumption. now apply list_cameras_Ok. }
  repeat split.
  - destruct (Run_first _ _ _ _ HR) as [rest ->]. now exists rest.
  - apply Hall.
  - exact Hkeys.
  - intros raw cameras k Hb Hd _ Hno. apply lookup_None_keys. intros I.
    destruct (Hkeys k I) as (raw' & cameras' & Hb' & Hd' & Hin).
    rewrite Hb in Hb'. injection Hb' as <-. rewrite Hd in Hd'.
    injection Hd' as <-. contradiction.
Qed.

(** The registry held the attic camera; the backend now lists the porch
    camera only. *)
Lemma update_drops_stale_entries_witness :
  exists self',
    update (station (serving [porch] [porch_paths]) []
              [(3, SynoCamera_new (mkCameraData 3 []))]) = (self', Ok tt) /\
    lookup 3 (_data self') = None /\
    lookup 1 (_data self') <> None.
Proof.
  pose (self := station (serving [porch] [porch_paths]) []
                  [(3, SynoCamera_new (mkCameraData 3 []))]).
  exists (fst (update self)).
  split; [reflexivity|]. split.
  - apply (proj2 (proj2 (proj2 (proj2
             (update_drops_stale_entries self (fst (update self)) (Ok tt) eq_refl))))
             (mkResponse (Some true) (Some (DCameras [porch]))) [porch] 3).
    + reflexivity.
    + reflexivity.
    + now left.
    + intros [E|[]]. discriminate E.
  - vm_compute. discriminate.
Defined.

(** C5: a second [update()] against a backend that answers each request
    as it did during the first call (the backend is a function of the
    request) leaves the registry the first call left, and ends the same
    way. *)
Theorem update_idempotent self :
  let once := update self in
  let twice := update (fst once) in
  _data (fst twice) = _data (fst once) /\ snd twice = snd once.
Proof.
  destruct (update_run (backend (_dsm self))) as (reqs & d' & r & _ & Hall).
  pose proof (Hall (sent (_dsm self)) (_data self)) as H1.
  rewrite <- station_eta in H1.
  cbv zeta. rewrite H1. cbn [fst snd].
  rewrite Hall. split; reflexivity.
Qed.

(** C7: the apply loop subscripts the registry with the id of each record.
    If the live-view response holds a record whose id the list response did
    not carry, [update()] raises [KeyError] with such an id; if every id of
    the response is one the list response carried, [update()] raises no
    [KeyError] with a camera id. *)
Theorem update_live_view_unknown_id self :
  let b := backend (_dsm self) in
  (forall raw cameras live records r,
     b list_request = inr raw ->
     resp_data raw = Some (DCameras cameras) ->
     cameras <> [] ->
     (forall j, In j (keys (listed cameras)) -> motion_ok b j) ->
     b (live_view_request (id_list (listed cameras))) = inr live ->
     live_view_records live = Ok records ->
     In r records ->
     ~ In (lvd_id r) (keys (listed cameras)) ->
     exists self' k,
       update self = (self', Raise (KeyError (PInt k))) /\
       In k (map lvd_id records) /\
       lookup k (_data self') = None)
  /\
  ((forall raw cameras live records r,
      b list_request = inr raw ->
      resp_data raw = Some (DCameras cameras) ->
      b (live_view_request (id_list (listed cameras))) = inr live ->
      live_view_records live = Ok records ->
      In r records ->
      In (lvd_id r) (keys (listed cameras))) ->
   forall self' k, update self <> (self', Raise (KeyError (PInt k)))).
Proof.
  intros b. subst b.
  destruct (update_run_self self) as (reqs & d' & r0 & HR & Hu).
  split.
  - intros raw cameras live records r Hb Hd Hne Hall Hl Hr Hin Hno.
    apply list_cameras_Ok in Hd. rewrite Hu. clear Hu.
    inversion HR; subst; same_answers;
      try match goal with
      | Hw : without_motion ?d = listed _ |- _ =>
          pose proof (keys_of_without_motion _ _ Hw) as K;
          try rewrite <- (id_list_keys _ _ K) in Hl
      end; same_answers.
    + exfalso.
      match goal with
      | Hs : motion_stop _ ?k0 _, Hk0 : keys (listed _) = _ |- _ =>
          apply (motion_stop_not_ok _ _ _ Hs), Hall; rewrite Hk0;
          apply in_or_app; right; now left
      end.
    + congruence.
    + exfalso. apply Hno. rewrite <- K. auto.
    + match goal with
      | Hm : ~ In (lvd_id ?r1) (keys _) |- _ =>
          eexists; exists (lvd_id r1); split; [reflexivity|]; split
      end.
      * rewrite map_app, in_app_iff. right. now left.
      * unfold station. cbn [_data]. apply lookup_None_keys.
        now rewrite keys_applied.
  - intros Hsafe self' k Hu'. rewrite Hu in Hu'. injection Hu' as <- ->.
    inversion HR; subst;
      try match goal with
      | Hw : without_motion ?d = listed _ |- _ =>
          pose proof (keys_of_without_motion _ _ Hw) as K
      end.
    + match goal with H : list_cameras _ = Raise _ |- _ =>
        destruct (list_cameras_error _ _ H) as [E|[E|E]]; discriminate E end.
    + match goal with H : motion_stop _ _ _ |- _ =>
        destruct H as [(f & _ & E) | (raw' & _ & _ & E)]; discriminate E end.
    + match goal with H : live_view_records _ = Raise _ |- _ =>
        destruct (live_view_records_error _ _ H) as [E|E]; discriminate E end.
    + match goal with
      | Hm : ~ In (lvd_id _) (keys _), Hb : _ list_request = inr ?raw,
        Hc : list_cameras ?raw = Ok ?cs,
        Hl : _ (live_view_request _) = inr ?live,
        Hr : live_view_records ?live = Ok _ |- _ =>
          apply Hm; rewrite K; rewrite (id_list_keys _ _ K) in Hl;
          apply list_cameras_Ok in Hc;
          apply (Hsafe raw cs live _ _ Hb Hc Hl Hr);
          apply in_or_app; right; now left
      end.
Qed.

(** One backend answers with a record of an unlisted camera, another with
    a record for one of the two listed cameras only. *)
Lemma update_live_view_unknown_id_witness :
  (exists self' k,
     update (station (serving [porch] [porch_paths; attic_paths]) [] [])
       = (self', Raise (KeyError (PInt k))) /\
     In k (map lvd_id [porch_paths; attic_paths]) /\
     lookup k (_data self') = None)
  /\
  (forall self' k,
     update (station (serving [porch; garage] [garage_paths]) [] [])
       <> (self', Raise (KeyError (PInt k)))).
Proof.
  split.
  - apply (proj1 (update_live_view_unknown_id
                    (station (serving [porch] [porch_paths; attic_paths]) [] []))
             (mkResponse (Some true) (Some (DCameras [porch]))) [porch]
             (mkResponse (Some true)
                (Some (DLiveViews [porch_paths; attic_paths])))
             [porch_paths; attic_paths] attic_paths).
    + reflexivity.
    + reflexivity.
    + discriminate.
    + intros j [<-|[]]. do 2 eexists. split; reflexivity.
    + reflexivity.
    + reflexivity.
    + right. now left.
    + intros [E|[]]. discriminate E.
  - apply (proj2 (update_live_view_unknown_id
                    (station (serving [porch; garage] [garage_paths]) [] []))).
    intros raw cameras live records r Hb Hd Hl Hr Hin.
    injection Hb as <-. injection Hd as <-.
    injection Hl as <-. injection Hr as <-.
    destruct Hin as [<-|[]]. right. now left.
Defined.

End UpdateClaims.

(* ===================================================================== *)
(** ** Accessors and remote operations *)
(* ===================================================================== *)

Section Operations.
Import Registry RegistryFacts.

(** C6: looking up an id that is no key of the registry raises [KeyError]
    with that id, in [get_camera] and in [is_motion_detection_enabled]
    alike; no default value is returned and the object is left as it was. *)
Theorem get_camera_absent self camera_id :
  ~ In camera_id (keys (_data self)) ->
  get_camera camera_id self = (self, Raise (KeyError (PInt camera_id))) /\
  is_motion_detection_enabled camera_id self =
    (self, Raise (KeyError (PInt camera_id))).
Proof.
  intros N. apply lookup_None_keys in N.
  unfold is_motion_detection_enabled, get_camera, getitem_camera, bind, get_data.
  rewrite N. split; reflexivity.
Qed.

Lemma get_camera_absent_witness :
  get_camera 7 (station (serving [] []) [] [(1, SynoCamera_new porch)])
    = (station (serving [] []) [] [(1, SynoCamera_new porch)],
       Raise (KeyError (PInt 7))) /\
  is_motion_detection_enabled 7
      (station (serving [] []) [] [(1, SynoCamera_new porch)])
    = (station (serving [] []) [] [(1, SynoCamera_new porch)],
       Raise (KeyError (PInt 7))).
Proof.
  apply (get_camera_absent
           (station (serving [] []) [] [(1, SynoCamera_new porch)]) 7).
  intros [E|[]]. discriminate E.
Defined.

Lemma dsm_get_sends_only api method params mv self :
  sends_only (dsm_get api method params mv) self
    (mkRequest api method params mv).
Proof.
  unfold sends_only, dsm_get, station.
  destruct (backend (_dsm self) _); reflexivity.
Qed.

Lemma bind_lift_sends_only {A B} (c : M A) (f : A -> Result B) self req :
  sends_only c self req ->
  sends_only (bind c (fun a => lift (f a))) self req.
Proof.
  unfold sends_only, bind, lift.
  destruct (c self) as [s' [a|e]]; simpl; auto.
Qed.

Lemma bind_lift_answer {A B} (c : M A) (f : A -> Result B) self a :
  snd (c self) = Ok a ->
  snd (bind c (fun a => lift (f a)) self) = f a.
Proof.
  unfold bind, lift. destruct (c self) as [s' [a'|e]]; simpl; congruence.
Qed.

Lemma dsm_get_answer api method params mv self raw :
  backend (_dsm self) (mkRequest api method params mv) = inr raw ->
  snd (dsm_get api method params mv self) = Ok raw.
Proof. unfold dsm_get. now intros ->. Qed.

Lemma getitem_success_Some raw ok :
  resp_success raw = Some ok -> getitem_success raw = Ok ok.
Proof. unfold getitem_success. now intros ->. Qed.

(** C8: [enable_camera] and [disable_camera] place the [camera_id] they are
    given, unchanged, under ["idList"] in the one request they send to the
    camera API, [Enable] and [Disable] respectively, and return the
    ["success"] field of the response. *)
Theorem enable_disable_forward_ids (camera_id : PyVal) self :
  let b := backend (_dsm self) in
  let enable := mkRequest CAMERA_API_KEY "Enable" [("idList", camera_id)] None in
  let disable := mkRequest CAMERA_API_KEY "Disable" [("idList", camera_id)] None in
  sends_only (enable_camera camera_id) self enable /\
  sends_only (disable_camera camera_id) self disable /\
  (forall raw ok,
     b enable = inr raw -> resp_success raw = Some ok ->
     snd (enable_camera camera_id self) = Ok ok) /\
  (forall raw ok,
     b disable = inr raw -> resp_success raw = Some ok ->
     snd (disable_camera camera_id self) = Ok ok).
Proof.
  cbv zeta. unfold enable_camera, disable_camera. repeat split.
  - apply bind_lift_sends_only, dsm_get_sends_only.
  - apply bind_lift_sends_only, dsm_get_sends_only.
  - intros raw ok Hb Hs.
    rewrite (bind_lift_answer _ _ _ _ (dsm_get_answer _ _ _ _ _ _ Hb)).
    now apply getitem_success_Some.
  - intros raw ok Hb Hs.
    rewrite (bind_lift_answer _ _ _ _ (dsm_get_answer _ _ _ _ _ _ Hb)).
    now apply getitem_success_Some.
Qed.

(** A single id and a comma-joined list of ids. *)
Lemma enable_disable_forward_ids_witness :
  (fst (enable_camera (PStr "1,2,3") (station (serving [] []) [] []))
     = station (serving [] [])
         [mkRequest CAMERA_API_KEY "Enable" [("idList", PStr "1,2,3")] None] [] /\
   snd (enable_camera (PStr "1,2,3") (station (serving [] []) [] [])) = Ok true)
  /\
  (fst (disable_camera (PStr "4") (station (serving [] []) [] []))
     = station (serving [] [])
         [mkRequest CAMERA_API_KEY "Disable" [("idList", PStr "4")] None] [] /\
   snd (disable_camera (PStr "4") (station (serving [] []) [] [])) = Ok true).
Proof.
  split; split.
  - apply (proj1 (enable_disable_forward_ids (PStr "1,2,3")
                    (station (serving [] []) [] []))).
  - apply (proj1 (proj2 (proj2 (enable_disable_forward_ids (PStr "1,2,3")
                    (station (serving [] []) [] []))))
             (mkResponse (Some true) None) true); reflexivity.
  - apply (proj1 (proj2 (enable_disable_forward_ids (PStr "4")
                    (station (serving [] []) [] [])))).
  - apply (proj2 (proj2 (proj2 (enable_disable_forward_ids (PStr "4")
                    (station (serving [] []) [] []))))
             (mkResponse (Some true) None) true); reflexivity.
Defined.

(** C9: [set_home_mode] sends one [Switch] request to the home-mode API
    whose ["on"] parameter is the string ["true"] for [True] and ["false"]
    for [False], and returns the ["success"] field of the response. *)
Theorem set_home_mode_serialises_state self :
  let switch (on : string) :=
    mkRequest HOME_MODE_API_KEY "Switch" [("on", PStr on)] None in
  sends_only (set_home_mode true) self (switch "true") /\
  sends_only (set_home_mode false) self (switch "false") /\
  (forall raw ok,
     backend (_dsm self) (switch "true") = inr raw ->
     resp_success raw = Some ok ->
     snd (set_home_mode true self) = Ok ok) /\
  (forall raw ok,
     backend (_dsm self) (switch "false") = inr raw ->
     resp_success raw = Some ok ->
     snd (set_home_mode false self) = Ok ok).
Proof.
  cbv zeta. unfold set_home_mode. repeat split.
  - apply bind_lift_sends_only, (dsm_get_sends_only _ _ _ _ self).
  - apply bind_lift_sends_only, (dsm_get_sends_only _ _ _ _ self).
  - intros raw ok Hb Hs.
    rewrite (bind_lift_answer _ _ _ _
               (dsm_get_answer HOME_MODE_API_KEY "Switch"
                  [("on", PStr "true")] None _ _ Hb)).
    now apply getitem_success_Some.
  - intros raw ok Hb Hs.
    rewrite (bind_lift_answer _ _ _ _
               (dsm_get_answer HOME_MODE_API_KEY "Switch"
                  [("on", PStr "false")] None _ _ Hb)).
    now apply getitem_success_Some.
Qed.

Lemma set_home_mode_serialises_state_witness :
  snd (set_home_mode true (station (serving [] []) [] [])) = Ok true /\
  sent (_dsm (fst (set_home_mode false (station (serving [] []) [] []))))
    = [mkRequest HOME_MODE_API_KEY "Switch" [("on", PStr "false")] None].
Proof.
  split.
  - apply (proj1 (proj2 (proj2 (set_home_mode_serialises_state
                    (station (serving [] []) [] []))))
             (mkResponse (Some true) None) true); reflexivity.
  - pose proof (proj1 (proj2 (set_home_mode_serialises_state
                    (station (serving [] []) [] [])))) as H.
    unfold sends_only in H. rewrite H. reflexivity.
Defined.

Lemma get_home_mode_status_sends_only self :
  sends_only get_home_mode_status self
    (mkRequest HOME_MODE_API_KEY "GetInfo" [] None).
Proof.
  pose proof (dsm_get_sends_only HOME_MODE_API_KEY "GetInfo" [] None self) as H.
  unfold get_home_mode_status, sends_only, bind, lift in *.
  destruct (dsm_get HOME_MODE_API_KEY "GetInfo" [] None self) as [s' [raw|e]];
    [|exact H].
  destruct (getitem_data raw); exact H.
Qed.

(** C10: each remote operation sends exactly one request, whatever the
    backend answers, and leaves the camera registry as it was. *)
Theorem remote_operations_keep_registry self
    (camera_id snapshot_id snapshot_size : PyVal) (save state : bool) :
  let one {A} (op : M A) :=
    _data (fst (op self)) = _data self /\
    exists req, sent (_dsm (fst (op self))) = sent (_dsm self) ++ [req] in
  one (enable_camera camera_id) /\
  one (disable_camera camera_id) /\
  one (capture_camera_image camera_id save) /\
  one (download_snapshot snapshot_id snapshot_size) /\
  one (enable_motion_detection camera_id) /\
  one (disable_motion_detection camera_id) /\
  one get_home_mode_status /\
  one (set_home_mode state).
Proof.
  assert (G : forall A (op : M A) req,
    sends_only op self req ->
    _data (fst (op self)) = _data self /\
    exists req, sent (_dsm (fst (op self))) = sent (_dsm self) ++ [req]).
  { intros A op req H. unfold sends_only in H. rewrite H.
    split; [reflexivity | now exists req]. }
  cbv zeta.
  split; [eapply G, bind_lift_sends_only, dsm_get_sends_only|].
  split; [eapply G, bind_lift_sends_only, dsm_get_sends_only|].
  split; [eapply G, dsm_get_sends_only|].
  split; [eapply G, dsm_get_sends_only|].
  split; [eapply G, dsm_get_sends_only|].
  split; [eapply G, dsm_get_sends_only|].
  split; [eapply G, get_home_mode_status_sends_only|].
  eapply G, bind_lift_sends_only, dsm_get_sends_only.
Qed.

End Operations.

(* ===================================================================== *)
(** ** The entries of a completed cycle *)
(* ===================================================================== *)

Section Entries.
Import Registry RegistryFacts.

Lemma set_item_new j v d :
  lookup j d = None -> set_item j v d = d ++ [(j, v)].
Proof.
  induction d as [|[k' v'] d IH]; simpl; [reflexivity|].
  destruct (Z.eqb_spec j k'); [discriminate|].
  intros H. now rewrite IH.
Qed.

Lemma keys_app d d' : keys (d ++ d') = keys d ++ keys d'.
Proof. unfold keys. apply map_app. Qed.

(** Records with pairwise distinct ids are entered one after the other. *)
Lemma merged_distinct cameras d :
  NoDup (keys d ++ map cd_id cameras) ->
  fold_left (fun d c => merge_camera c d) cameras d =
  d ++ map (fun c => (cd_id c, SynoCamera_new c)) cameras.
Proof.
  revert d. induction cameras as [|c cameras IH]; intros d N; simpl.
  - now rewrite app_nil_r.
  - simpl in N.
    assert (Hc : lookup (cd_id c) d = None).
    { apply lookup_None_keys. intros I.
      apply NoDup_remove_2 in N. apply N, in_or_app. now left. }
    unfold merge_camera at 2.
    rewrite (proj2 (mem_false _ _) Hc), (set_item_new _ _ _ Hc).
    rewrite IH.
    + now rewrite <- app_assoc.
    + rewrite keys_app. simpl. now rewrite <- app_assoc.
Qed.

Lemma listed_distinct cameras :
  NoDup (map cd_id cameras) ->
  listed cameras = map (fun c => (cd_id c, SynoCamera_new c)) cameras.
Proof. intros N. unfold listed. now rewrite merged_distinct. Qed.

Lemma lookup_listed_distinct cameras c :
  NoDup (map cd_id cameras) -> In c cameras ->
  lookup (cd_id c) (listed cameras) = Some (SynoCamera_new c).
Proof.
  intros N I. rewrite (listed_distinct _ N).
  induction cameras as [|c' cameras IH]; [destruct I|].
  simpl. inversion N as [|? ? Hn N']; subst.
  destruct I as [->|I].
  - now rewrite Z.eqb_refl.
  - destruct (Z.eqb_spec (cd_id c) (cd_id c')) as [E|_]; [|now apply IH].
    exfalso. apply Hn. rewrite <- E. now apply in_map.
Qed.

(** The motion loop leaves the entries of other cameras alone. *)
Lemma update_motion_other ids b k :
  ~ In k ids ->
  forall l d s' r,
    update_motion ids (station b l d) = (s', r) ->
    lookup k (_data s') = lookup k d.
Proof.
  induction ids as [|j ids IH]; intros N l d s' r H.
  - injection H as <- _. reflexivity.
  - assert (Nj : k <> j) by (intros ->; apply N; now left).
    assert (N' : ~ In k ids) by (intros I; apply N; now right).
    destruct (b (motion_request j)) as [f|raw] eqn:Hb.
    + rewrite (update_motion_step_fail _ _ _ _ _ _ Hb) in H.
      injection H as <- _. reflexivity.
    + destruct (resp_data raw) as [x|] eqn:Hx.
      * rewrite (update_motion_step_ok _ _ _ _ _ _ _ Hb Hx) in H.
        rewrite (IH N' _ _ _ _ H), lookup_alter.
        destruct (Z.eqb_spec k j); [contradiction | reflexivity].
      * rewrite (update_motion_step_nodata _ _ _ _ _ _ Hb Hx) in H.
        injection H as <- _. reflexivity.
Qed.

(** A completed motion loop has applied to each entry the data of the
    response to its own request. *)
Lemma update_motion_entry ids b k raw x :
  NoDup ids -> In k ids ->
  b (motion_request k) = inr raw -> resp_data raw = Some x ->
  forall l d s',
    update_motion ids (station b l d) = (s', Ok tt) ->
    lookup k (_data s') = option_map (update_motion_detection x) (lookup k d).
Proof.
  intros N I Hb Hx. induction ids as [|j ids IH]; intros l d s' H; [destruct I|].
  inversion N as [|? ? Hn N']; subst.
  destruct (b (motion_request j)) as [f|rawj] eqn:Hbj.
  - rewrite (update_motion_step_fail _ _ _ _ _ _ Hbj) in H. discriminate H.
  - destruct (resp_data rawj) as [xj|] eqn:Hxj.
    + rewrite (update_motion_step_ok _ _ _ _ _ _ _ Hbj Hxj) in H.
      destruct I as [->|I].
      * rewrite (update_motion_other _ _ _ Hn _ _ _ _ H), lookup_alter, Z.eqb_refl.
        assert (rawj = raw) as -> by congruence.
        assert (xj = x) as -> by congruence. reflexivity.
      * rewrite (IH N' I _ _ _ H), lookup_alter.
        destruct (Z.eqb_spec k j) as [->|]; [contradiction | reflexivity].
    + rewrite (update_motion_step_nodata _ _ _ _ _ _ Hbj Hxj) in H.
      discriminate H.
Qed.

(** Records of other ids leave an entry alone. *)
Lemma lookup_applied_other k records d :
  (forall r, In r records -> lvd_id r <> k) ->
  lookup k (fold_left apply_record records d) = lookup k d.
Proof.
  revert d. induction records as [|r records IH]; intros d H; simpl.
  - reflexivity.
  - rewrite IH by (intros r' I; apply H; now right).
    unfold apply_record. rewrite lookup_alter.
    destruct (Z.eqb_spec k (lvd_id r)) as [E|]; [|reflexivity].
    exfalso. apply (H r); [now left | now symmetry].
Qed.

(** The last record of an id is the one its entry ends up with. *)
Lemma lookup_applied_last k before r after d c :
  lvd_id r = k ->
  (forall r', In r' after -> lvd_id r' <> k) ->
  lookup k d = Some c ->
  exists c1,
    lookup k (fold_left apply_record (before ++ r :: after) d)
      = Some (live_view_update r c1) /\
    camera_data c1 = camera_data c /\
    motion_detection_enabled c1 = motion_detection_enabled c.
Proof.
  intros Hr Hafter Hc.
  rewrite fold_left_app. simpl.
  rewrite (lookup_applied_other _ _ _ Hafter).
  unfold apply_record at 1. rewrite lookup_alter, Hr, Z.eqb_refl.
  assert (I : In k (keys (fold_left apply_record before d))).
  { rewrite keys_applied. apply lookup_Some_keys. eauto. }
  apply lookup_Some_keys in I. destruct I as [c1 Hc1].
  destruct (lookup_applied _ _ _ _ Hc1) as (c0 & Hc0 & Hd & Hm & _).
  assert (c0 = c) as -> by congruence.
  exists c1. rewrite Hc1. auto.
Qed.

(** What a normal return of [update()] on a non-empty list response tells:
    the motion loop completed, the live-view response was decoded, and its
    records were all applied. *)
Lemma update_ok_inv self self' raw cameras :
  backend (_dsm self) list_request = inr raw ->
  list_cameras raw = Ok cameras ->
  cameras <> [] ->
  update self = (self', Ok tt) ->
  exists l0 l1 d1 live records,
    update_motion (keys (listed cameras))
      (station (backend (_dsm self)) l0 (listed cameras))
      = (station (backend (_dsm self)) l1 d1, Ok tt) /\
    without_motion d1 = listed cameras /\
    backend (_dsm self) (live_view_request (id_list (listed cameras))) = inr live /\
    live_view_records live = Ok records /\
    (forall r, In r records -> In (lvd_id r) (keys d1)) /\
    self' = station (backend (_dsm self))
              (l1 ++ [live_view_request (id_list (listed cameras))])
              (fold_left apply_record records d1).
Proof.
  intros Hb Hc Hne Hu.
  rewrite (station_eta self) in Hu at 1.
  rewrite (update_list_decoded _ _ _ _ _ Hb Hc) in Hu.
  destruct (update_motion_run (keys (listed cameras)) (backend (_dsm self))
              (listed cameras))
    as (d1 & Hw & [[Hrun _] | (before & k & after & e & _ & Hrun & _)]).
  2:{ rewrite (bind_raise _ _ _ _ _ (Hrun _)) in Hu. discriminate Hu. }
  rewrite (without_motion_bare _ (bare_listed cameras)) in Hw.
  pose proof (keys_of_without_motion _ _ Hw) as K.
  rewrite (bind_ok _ _ _ _ _ (Hrun _)) in Hu.
  assert (E : is_empty d1 = false).
  { rewrite (is_empty_of_keys _ _ K). now apply listed_nonempty. }
  rewrite <- (id_list_keys _ _ K).
  destruct (backend (_dsm self) (live_view_request (id_list d1)))
    as [f|live] eqn:Hl.
  { rewrite (fetch_live_views_fail _ _ _ _ E Hl) in Hu. discriminate Hu. }
  destruct (live_view_records live) as [records|e] eqn:Hr.
  2:{ rewrite (fetch_live_views_undecoded _ _ _ _ _ E Hl Hr) in Hu.
      discriminate Hu. }
  rewrite (fetch_live_views_decoded _ _ _ _ _ E Hl Hr) in Hu.
  destruct (apply_live_views_run records (backend (_dsm self)) d1)
    as [[Hin Happ] | (before & r & after & _ & _ & _ & Happ)];
    rewrite Happ in Hu; [|discriminate Hu].
  injection Hu as <-.
  exists (sent (_dsm self) ++ [list_request]),
    ((sent (_dsm self) ++ [list_request])
       ++ map motion_request (keys (listed cameras))),
    d1, live, records.
  split; [apply Hrun|]. split; [exact Hw|]. split; [reflexivity|].
  split; [exact Hr|]. split; [exact Hin | reflexivity].
Qed.

Lemma getitem_camera_found k s c :
  lookup k (_data s) = Some c -> getitem_camera k s = (s, Ok c).
Proof.
  intros H. unfold getitem_camera, bind, get_data, ret. now rewrite H.
Qed.

Lemma getitem_camera_missing k s :
  lookup k (_data s) = None ->
  getitem_camera k s = (s, Raise (KeyError (PInt k))).
Proof.
  intros H. unfold getitem_camera, bind, get_data, raise. now rewrite H.
Qed.

End Entries.

(* ===================================================================== *)
(** ** Reading the registry after a cycle *)
(* ===================================================================== *)

Section AfterUpdate.
Import Registry RegistryFacts.

Lemma camera_data_applied records d :
  map camera_data (values (fold_left apply_record records d))
  = map camera_data (values d).
Proof.
  revert d. induction records as [|r records IH]; intros d; simpl.
  - reflexivity.
  - rewrite IH. unfold apply_record, values.
    induction d as [|[k v] d IHd]; simpl; [reflexivity|].
    destruct (lvd_id r =? k); simpl; [reflexivity | now rewrite IHd].
Qed.

Lemma camera_data_without_motion d :
  map camera_data (values (without_motion d)) = map camera_data (values d).
Proof.
  unfold values, without_motion. rewrite !map_map. reflexivity.
Qed.

Lemma camera_data_listed_distinct cameras :
  NoDup (map cd_id cameras) ->
  map camera_data (values (listed cameras)) = cameras.
Proof.
  intros N. rewrite (listed_distinct _ N). unfold values.
  rewrite !map_map. simpl. apply map_id.
Qed.

(** X1: the live-view record the backend returned for a camera is what
    [get_camera_live_view_path] hands out after the cycle.  When
    [update()] returned normally, asking for the live view of the id of a
    record [r] of the [GetLiveViewPath] response, without a format, returns
    the entity holding [r], provided no later record of the response
    carries the same id. *)
Theorem update_then_live_view_path self self' raw cameras live before r after :
  backend (_dsm self) list_request = inr raw ->
  resp_data raw = Some (DCameras cameras) ->
  cameras <> [] ->
  update self = (self', Ok tt) ->
  backend (_dsm self) (live_view_request (id_list (listed cameras))) = inr live ->
  live_view_records live = Ok (before ++ r :: after) ->
  (forall r', In r' after -> lvd_id r' <> lvd_id r) ->
  get_camera_live_view_path (lvd_id r) None self'
    = (self', Ok (Entity (Some r))).
Proof.
  intros Hb Hd Hne Hu Hl Hr Hafter. apply list_cameras_Ok in Hd.
  destruct (update_ok_inv _ _ _ _ Hb Hd Hne Hu)
    as (l0 & l1 & d1 & live' & records & _ & _ & Hl' & Hr' & Hin & Hs).
  rewrite Hl in Hl'. injection Hl' as <-.
  rewrite Hr in Hr'. injection Hr' as <-.
  assert (I : In (lvd_id r) (keys d1)).
  { apply Hin, in_or_app. right. now left. }
  apply lookup_Some_keys in I. destruct I as [c Hc].
  destruct (lookup_applied_last _ before r after _ _ eq_refl Hafter Hc)
    as (c1 & Hc1 & _).
  assert (Hfound : lookup (lvd_id r) (_data self') = Some (live_view_update r c1)).
  { rewrite Hs. exact Hc1. }
  unfold get_camera_live_view_path. cbn [truthy].
  rewrite (bind_ok _ _ _ _ _ (getitem_camera_found _ _ _ Hfound)).
  reflexivity.
Qed.

(** Two records for the porch camera: the later one is kept. *)
Lemma update_then_live_view_path_witness :
  exists self',
    update (station
              (serving [porch; garage]
                 [mkLiveViewData 1 [("rtsp", "rtsp://old/porch")];
                  garage_paths; porch_paths])
              [] []) = (self', Ok tt) /\
    get_camera_live_view_path 1 None self'
      = (self', Ok (Entity (Some porch_paths))).
Proof.
  eexists. split; [vm_compute; reflexivity|].
  apply (update_then_live_view_path
           (station
              (serving [porch; garage]
                 [mkLiveViewData 1 [("rtsp", "rtsp://old/porch")];
                  garage_paths; porch_paths])
              [] [])
           _ (mkResponse (Some true) (Some (DCameras [porch; garage])))
           [porch; garage]
           (mkResponse (Some true)
              (Some (DLiveViews
                       [mkLiveViewData 1 [("rtsp", "rtsp://old/porch")];
                        garage_paths; porch_paths])))
           [mkLiveViewData 1 [("rtsp", "rtsp://old/porch")]; garage_paths]
           porch_paths []).
  - reflexivity.
  - reflexivity.
  - discriminate.
  - vm_compute. reflexivity.
  - reflexivity.
  - reflexivity.
  - intros r' [].
Defined.

(** X2: each entry gets the motion data of its own camera.  When
    [update()] returned normally, [is_motion_detection_enabled] on a listed
    camera returns, without raising, the flag that
    [update_motion_detection] caches from the ["data"] of the response to
    that camera's own [MotionEnum] request. *)
Theorem update_then_motion_flag self self' raw cameras c mraw x :
  backend (_dsm self) list_request = inr raw ->
  resp_data raw = Some (DCameras cameras) ->
  In c cameras ->
  update self = (self', Ok tt) ->
  backend (_dsm self) (motion_request (cd_id c)) = inr mraw ->
  resp_data mraw = Some x ->
  is_motion_detection_enabled (cd_id c) self'
    = (self',
       Ok (motion_detection_enabled
             (update_motion_detection x (SynoCamera_new c)))).
Proof.
  intros Hb Hd Hc Hu Hm Hx. apply list_cameras_Ok in Hd.
  assert (Hne : cameras <> []) by (intros ->; destruct Hc).
  destruct (update_ok_inv _ _ _ _ Hb Hd Hne Hu)
    as (l0 & l1 & d1 & live & records & Hrun & Hw & _ & _ & _ & Hs).
  assert (Ik : In (cd_id c) (keys (listed cameras))).
  { apply In_keys_listed. now apply in_map. }
  pose proof (update_motion_entry _ _ _ _ _ (NoDup_keys_listed cameras) Ik
                Hm Hx _ _ _ Hrun) as H1.
  cbn [_data station] in H1. unfold station in H1. cbn [_data] in H1.
  apply lookup_Some_keys in Ik. destruct Ik as [c0 Hc0].
  rewrite Hc0 in H1. simpl in H1.
  assert (I' : In (cd_id c) (keys (_data self'))).
  { rewrite Hs. unfold station. cbn [_data]. rewrite keys_applied.
    apply lookup_Some_keys. eauto. }
  apply lookup_Some_keys in I'. destruct I' as [c' Hc'].
  assert (Hflag : motion_detection_enabled c'
                  = motion_detection_enabled (update_motion_detection x c0)).
  { rewrite Hs in Hc'. unfold station in Hc'. cbn [_data] in Hc'.
    destruct (lookup_applied _ _ _ _ Hc') as (c1 & Hc1 & _ & Hmm & _).
    congruence. }
  unfold is_motion_detection_enabled.
  rewrite (bind_ok _ _ _ _ _ (getitem_camera_found _ _ _ Hc')).
  unfold ret. rewrite Hflag. reflexivity.
Qed.

Lemma update_then_motion_flag_witness :
  exists self',
    update (station (serving [porch; garage; porch] [porch_paths; garage_paths])
              [] []) = (self', Ok tt) /\
    is_motion_detection_enabled 2 self' = (self', Ok (Some true)).
Proof.
  eexists. split; [vm_compute; reflexivity|].
  apply (update_then_motion_flag
           (station (serving [porch; garage; porch] [porch_paths; garage_paths])
              [] [])
           _ (mkResponse (Some true) (Some (DCameras [porch; garage; porch])))
           [porch; garage; porch] garage
           (mkResponse (Some true) (Some (DMotion (mkMotionData true))))
           (DMotion (mkMotionData true))).
  - reflexivity.
  - reflexivity.
  - right. now left.
  - vm_compute. reflexivity.
  - reflexivity.
  - reflexivity.
Defined.

(** X3: how the three steps compose on one camera.  When the listed ids
    are pairwise distinct and [update()] returned normally, [get_camera] on
    a listed camera returns the freshly constructed entry of its list
    record, with the motion data of its own [MotionEnum] response applied
    and then the last live-view record of its id; with no such record, the
    entry is left without live-view data. *)
Theorem update_then_get_camera self self' raw cameras c mraw x live records :
  backend (_dsm self) list_request = inr raw ->
  resp_data raw = Some (DCameras cameras) ->
  NoDup (map cd_id cameras) ->
  In c cameras ->
  update self = (self', Ok tt) ->
  backend (_dsm self) (motion_request (cd_id c)) = inr mraw ->
  resp_data mraw = Some x ->
  backend (_dsm self) (live_view_request (id_list (listed cameras))) = inr live ->
  live_view_records live = Ok records ->
  (forall before r after,
     records = before ++ r :: after ->
     lvd_id r = cd_id c ->
     (forall r', In r' after -> lvd_id r' <> cd_id c) ->
     get_camera (cd_id c) self'
       = (self',
          Ok (live_view_update r
                (update_motion_detection x (SynoCamera_new c)))))
  /\
  ((forall r, In r records -> lvd_id r <> cd_id c) ->
   get_camera (cd_id c) self'
     = (self', Ok (update_motion_detection x (SynoCamera_new c)))).
Proof.
  intros Hb Hd N Hc Hu Hm Hx Hl Hr. apply list_cameras_Ok in Hd.
  assert (Hne : cameras <> []) by (intros ->; destruct Hc).
  destruct (update_ok_inv _ _ _ _ Hb Hd Hne Hu)
    as (l0 & l1 & d1 & live' & records' & Hrun & Hw & Hl' & Hr' & _ & Hs).
  rewrite Hl in Hl'. injection Hl' as <-.
  rewrite Hr in Hr'. injection Hr' as <-.
  assert (Ik : In (cd_id c) (keys (listed cameras))).
  { apply In_keys_listed. now apply in_map. }
  pose proof (update_motion_entry _ _ _ _ _ (NoDup_keys_listed cameras) Ik
                Hm Hx _ _ _ Hrun) as H1.
  unfold station in H1. cbn [_data] in H1.
  rewrite (lookup_listed_distinct _ _ N Hc) in H1. simpl in H1.
  assert (Hdata : _data self' = fold_left apply_record records d1).
  { rewrite Hs. reflexivity. }
  split.
  - intros before r after -> Hid Hafter.
    destruct (lookup_applied_last _ before r after _ _ Hid Hafter H1)
      as (c1 & Hc1 & Hcd & Hcm).
    rewrite <- Hdata in Hc1. unfold get_camera.
    rewrite (getitem_camera_found _ _ _ Hc1).
    unfold live_view_update. now rewrite Hcd, Hcm.
  - intros Hnone. unfold get_camera. apply getitem_camera_found.
    now rewrite Hdata, (lookup_applied_other _ _ _ Hnone).
Qed.

Lemma update_then_get_camera_witness :
  exists self',
    update (station (serving [porch; garage] [porch_paths]) [] [])
      = (self', Ok tt) /\
    get_camera 1 self'
      = (self',
         Ok (mkSynoCamera porch (Some true) (Some porch_paths))) /\
    get_camera 2 self'
      = (self', Ok (mkSynoCamera garage (Some true) None)).
Proof.
  eexists. split; [vm_compute; reflexivity|].
  assert (N : NoDup (map cd_id [porch; garage])).
  { repeat constructor; simpl; intuition discriminate. }
  split.
  - apply (proj1 (update_then_get_camera
             (station (serving [porch; garage] [porch_paths]) [] [])
             _ (mkResponse (Some true) (Some (DCameras [porch; garage])))
             [porch; garage] porch
             (mkResponse (Some true) (Some (DMotion (mkMotionData true))))
             (DMotion (mkMotionData true))
             (mkResponse (Some true) (Some (DLiveViews [porch_paths])))
             [porch_paths]
             eq_refl eq_refl N (or_introl eq_refl) eq_refl eq_refl eq_refl
             eq_refl eq_refl)
             [] porch_paths []).
    + reflexivity.
    + reflexivity.
    + intros r' [].
  - apply (proj2 (update_then_get_camera
             (station (serving [porch; garage] [porch_paths]) [] [])
             _ (mkResponse (Some true) (Some (DCameras [porch; garage])))
             [porch; garage] garage
             (mkResponse (Some true) (Some (DMotion (mkMotionData true))))
             (DMotion (mkMotionData true))
             (mkResponse (Some true) (Some (DLiveViews [porch_paths])))
             [porch_paths]
             eq_refl eq_refl N (or_intror (or_introl eq_refl)) eq_refl
             eq_refl eq_refl eq_refl eq_refl)).
    intros r [<-|[]]. discriminate.
Defined.

(** X4: [get_all_cameras] after a cycle.  When the listed ids are pairwise
    distinct and [update()] returned normally, [get_all_cameras] returns one
    entry per record of the list response, in the order of the response,
    each holding its record. *)
Theorem update_then_get_all_cameras self self' raw cameras :
  backend (_dsm self) list_request = inr raw ->
  resp_data raw = Some (DCameras cameras) ->
  NoDup (map cd_id cameras) ->
  update self = (self', Ok tt) ->
  exists entries,
    get_all_cameras self' = (self', Ok entries) /\
    map camera_data entries = cameras.
Proof.
  intros Hb Hd N Hu. apply list_cameras_Ok in Hd.
  exists (values (_data self')). split; [reflexivity|].
  destruct cameras as [|c cameras].
  - rewrite (station_eta self) in Hu at 1.
    rewrite (update_list_decoded _ _ _ _ _ Hb Hd) in Hu.
    injection Hu as <-. reflexivity.
  - destruct (update_ok_inv _ _ _ _ Hb Hd ltac:(discriminate) Hu)
      as (l0 & l1 & d1 & live & records & _ & Hw & _ & _ & _ & Hs).
    rewrite Hs. unfold station. cbn [_data].
    rewrite camera_data_applied, <- camera_data_without_motion, Hw.
    now apply camera_data_listed_distinct.
Qed.

Lemma update_then_get_all_cameras_witness :
  exists self' entries,
    update (station (serving [garage; porch] [porch_paths; garage_paths]) [] [])
      = (self', Ok tt) /\
    get_all_cameras self' = (self', Ok entries) /\
    map camera_data entries = [garage; porch].
Proof.
  eexists.
  assert (N : NoDup (map cd_id [garage; porch])).
  { repeat constructor; simpl; intuition discriminate. }
  destruct (update_then_get_all_cameras
              (station (serving [garage; porch] [porch_paths; garage_paths]) [] [])
              _ (mkResponse (Some true) (Some (DCameras [garage; porch])))
              [garage; porch] eq_refl eq_refl N eq_refl)
    as (entries & He & Hm).
  exists entries. split; [reflexivity|]. split; assumption.
Defined.

End AfterUpdate.

(* ===================================================================== *)
(** ** How a cycle ends *)
(* ===================================================================== *)

Section CycleOutcomes.
Import Registry RegistryFacts.


Lemma filter_motion_requests ids :
  filter is_live_view_request (map motion_request ids) = [].
Proof. induction ids as [|k ids IH]; simpl; [reflexivity | exact IH]. Qed.

Lemma motion_stop_unique b k e e' :
  motion_stop b k e -> motion_stop b k e' -> e = e'.
Proof.
  intros [(f & Hf & ->) | (raw & Hr & Hn & ->)]
         [(f' & Hf' & ->) | (raw' & Hr' & Hn' & ->)]; congruence.
Qed.

(** X5: the motion loop is sequential and stops at the first camera whose
    [MotionEnum] request fails or is answered without ["data"]: [update()]
    ends with that exception, having sent the list request and the motion
    requests up to that camera; the cameras after it are not asked and no
    [GetLiveViewPath] request is sent. *)
Theorem update_stops_at_first_motion_failure
    self raw cameras before k after e :
  backend (_dsm self) list_request = inr raw ->
  resp_data raw = Some (DCameras cameras) ->
  keys (listed cameras) = before ++ k :: after ->
  (forall j, In j before -> motion_ok (backend (_dsm self)) j) ->
  motion_stop (backend (_dsm self)) k e ->
  exists self',
    update self = (self', Raise e) /\
    sent (_dsm self') =
      sent (_dsm self) ++ list_request :: map motion_request (before ++ [k]) /\
    filter is_live_view_request
      (list_request :: map motion_request (before ++ [k])) = [].
Proof.
  intros Hb Hd Hk Hall Hstop. apply list_cameras_Ok in Hd.
  pose proof (motion_stop_not_ok _ _ _ Hstop) as Hno.
  destruct (update_motion_run (keys (listed cameras)) (backend (_dsm self))
              (listed cameras))
    as (d1 & _ & [[_ Hok] | (before' & k' & after' & e' & Hk' & Hrun & Hall' & He' & _)]).
  - exfalso. apply Hno, Hok. rewrite Hk. apply in_or_app. right. now left.
  - rewrite Hk in Hk'.
    destruct (first_stop_unique (motion_ok (backend (_dsm self)))
                _ _ _ _ _ _ Hk' Hall Hno Hall' (motion_stop_not_ok _ _ _ He'))
      as (<- & <- & <-).
    rewrite (motion_stop_unique _ _ _ _ Hstop He').
    eexists. split; [|split].
    + rewrite (station_eta self) at 1.
      rewrite (update_list_decoded _ _ _ _ _ Hb Hd).
      apply (bind_raise _ _ _ _ _ (Hrun _)).
    + unfold station. cbn [_dsm sent]. now rewrite <- app_assoc.
    + simpl. apply filter_motion_requests.
Qed.

(** The response to the garage camera's motion request has no ["data"]. *)
Lemma update_stops_at_first_motion_failure_witness :
  exists self',
    update (station
              (fun req =>
                 if asks_motion_of 2 req then inr (mkResponse (Some true) None)
                 else serving [porch; garage; mkCameraData 3 []] [] req)
              [] [])
      = (self', Raise (KeyError (PStr "data"))) /\
    sent (_dsm self') =
      [] ++ list_request :: map motion_request ([1] ++ [2]) /\
    filter is_live_view_request
      (list_request :: map motion_request ([1] ++ [2])) = [].
Proof.
  apply (update_stops_at_first_motion_failure
           (station
              (fun req =>
                 if asks_motion_of 2 req then inr (mkResponse (Some true) None)
                 else serving [porch; garage; mkCameraData 3 []] [] req)
              [] [])
           (mkResponse (Some true)
              (Some (DCameras [porch; garage; mkCameraData 3 []])))
           [porch; garage; mkCameraData 3 []] [1] 2 [3]).
  - reflexivity.
  - reflexivity.
  - reflexivity.
  - intros j [<-|[]]. do 2 eexists. split; reflexivity.
  - right. eexists. repeat split; reflexivity.
Defined.

(** X6: a list response that cannot be read empties the registry.  When
    the backend answers the list request with a response that has no
    ["data"] field holding a ["cameras"] list, [update()] raises (a
    [KeyError] on ["data"] when that field is absent, never a transport
    failure), the list request is the only request sent, and the registry
    is empty, whatever it held before the call. *)
Theorem update_unreadable_list_empties_registry self raw :
  backend (_dsm self) list_request = inr raw ->
  (forall cameras, resp_data raw <> Some (DCameras cameras)) ->
  exists e,
    update self =
      (station (backend (_dsm self)) (sent (_dsm self) ++ [list_request]) [],
       Raise e) /\
    (resp_data raw = None -> e = KeyError (PStr "data")) /\
    (forall f, e <> TransportError f).
Proof.
  intros Hb Hno.
  destruct (list_cameras raw) as [cameras|e] eqn:Hc.
  { apply list_cameras_Ok in Hc. now destruct (Hno cameras). }
  exists e. split; [|split].
  - rewrite (station_eta self) at 1. now apply update_list_undecoded with raw.
  - intros Hnone. unfold list_cameras, getitem_data in Hc. rewrite Hnone in Hc.
    now injection Hc as <-.
  - intros f ->. destruct (list_cameras_error _ _ Hc) as [E|[E|E]]; discriminate E.
Qed.

Lemma update_unreadable_list_empties_registry_witness :
  exists e,
    update (station (always (mkResponse (Some false) None)) []
              [(1, SynoCamera_new porch)]) =
      (station (always (mkResponse (Some false) None)) ([] ++ [list_request]) [],
       Raise e) /\
    (resp_data (mkResponse (Some false) None) = None ->
     e = KeyError (PStr "data")) /\
    (forall f, e <> TransportError f).
Proof.
  apply (update_unreadable_list_empties_registry
           (station (always (mkResponse (Some false) None)) []
              [(1, SynoCamera_new porch)])
           (mkResponse (Some false) None)).
  - reflexivity.
  - intros cameras H. discriminate H.
Defined.



(** X8: whatever way [update()] ended, [get_camera] raises [KeyError] for
    an id the backend's list response does not carry; this covers a failed
    or unreadable list call, after which every lookup raises. *)
Theorem update_then_get_camera_unlisted self self' r camera_id :
  update self = (self', r) ->
  (forall raw cameras,
     backend (_dsm self) list_request = inr raw ->
     resp_data raw = Some (DCameras cameras) ->
     ~ In camera_id (map cd_id cameras)) ->
  get_camera camera_id self' = (self', Raise (KeyError (PInt camera_id))).
Proof.
  intros Hu Hno.
  destruct (update_run_self self) as (reqs & d' & r' & HR & Hu').
  rewrite Hu in Hu'. injection Hu' as -> ->.
  unfold get_camera. apply getitem_camera_missing.
  unfold station. cbn [_data]. apply lookup_None_keys. intros I.
  destruct (Run_keys _ _ _ _ HR _ I) as (raw & cameras & Hb & Hc & Hin).
  apply list_cameras_Ok in Hc. exact (Hno raw cameras Hb Hc Hin).
Qed.

Lemma update_then_get_camera_unlisted_witness :
  exists self',
    update (station
              (timing_out (fun req => String.eqb (req_method req) "List")
                 (serving [porch] [porch_paths]))
              [] [(1, SynoCamera_new porch)])
      = (self', Raise (TransportError "timeout")) /\
    get_camera 1 self' = (self', Raise (KeyError (PInt 1))).
Proof.
  eexists. split; [vm_compute; reflexivity|].
  apply (update_then_get_camera_unlisted
           (station
              (timing_out (fun req => String.eqb (req_method req) "List")
                 (serving [porch] [porch_paths]))
              [] [(1, SynoCamera_new porch)])
           _ (Raise (TransportError "timeout")) 1).
  - vm_compute. reflexivity.
  - intros raw cameras Hb. discriminate Hb.
Defined.

End CycleOutcomes.

(* ===================================================================== *)
(** ** Accessors and remote operations: results and errors *)
(* ===================================================================== *)

Section OperationResults.
Import Registry RegistryFacts.

(** X9: the four accessors work on the cache alone.  Whether they return
    or raise, they send no request and leave the registry as it was. *)
Theorem accessors_are_local self camera_id video_format :
  fst (get_all_cameras self) = self /\
  fst (get_camera camera_id self) = self /\
  fst (get_camera_live_view_path camera_id video_format self) = self /\
  fst (is_motion_detection_enabled camera_id self) = self.
Proof.
  assert (G : fst (getitem_camera camera_id self) = self).
  { unfold getitem_camera, bind, get_data, ret, raise.
    now destruct (lookup camera_id (_data self)). }
  assert (B : forall A (k : SynoCamera -> A),
    fst (bind (getitem_camera camera_id) (fun c => ret (k c)) self) = self).
  { intros A k. unfold bind.
    destruct (getitem_camera camera_id self) as [s' [c|e]]; exact G. }
  split; [reflexivity|]. split; [exact G|]. split.
  - unfold get_camera_live_view_path.
    destruct (truthy video_format); apply B.
  - unfold is_motion_detection_enabled. apply B.
Qed.

(** X10: the format argument of [get_camera_live_view_path].  An empty
    string is treated like no format at all: the whole live-view entity of
    the camera is returned.  For an id that is no key of the registry the
    method raises [KeyError] with that id, with or without a format. *)
Theorem live_view_path_format self camera_id :
  (forall camera,
     lookup camera_id (_data self) = Some camera ->
     get_camera_live_view_path camera_id (Some "") self
       = (self, Ok (Entity (live_view camera))) /\
     get_camera_live_view_path camera_id None self
       = (self, Ok (Entity (live_view camera))))
  /\
  (~ In camera_id (keys (_data self)) ->
   forall video_format,
     get_camera_live_view_path camera_id video_format self
       = (self, Raise (KeyError (PInt camera_id)))).
Proof.
  split.
  - intros camera Hc. unfold get_camera_live_view_path. cbn [truthy].
    rewrite (bind_ok _ _ _ _ _ (getitem_camera_found _ _ _ Hc)).
    split; reflexivity.
  - intros N video_format. apply lookup_None_keys in N.
    unfold get_camera_live_view_path.
    destruct (truthy video_format);
      apply (bind_raise _ _ _ _ _ (getitem_camera_missing _ _ N)).
Qed.

Lemma live_view_path_format_witness :
  get_camera_live_view_path 1 (Some "")
      (station (serving [] []) [] [(1, live_view_update porch_paths (SynoCamera_new porch))])
    = (station (serving [] []) [] [(1, live_view_update porch_paths (SynoCamera_new porch))],
       Ok (Entity (Some porch_paths)))
  /\
  get_camera_live_view_path 2 (Some "rtsp")
      (station (serving [] []) [] [(1, live_view_update porch_paths (SynoCamera_new porch))])
    = (station (serving [] []) [] [(1, live_view_update porch_paths (SynoCamera_new porch))],
       Raise (KeyError (PInt 2))).
Proof.
  split.
  - apply (proj1 (live_view_path_format
             (station (serving [] []) [] [(1, live_view_update porch_paths (SynoCamera_new porch))])
             1) (live_view_update porch_paths (SynoCamera_new porch)) eq_refl).
  - apply (proj2 (live_view_path_format
             (station (serving [] []) [] [(1, live_view_update porch_paths (SynoCamera_new porch))])
             2)).
    intros [E|[]]. discriminate E.
Defined.

Lemma bind_lift_failure {A B} (c : M A) (f : A -> Result B) self e :
  snd (c self) = Raise e ->
  snd (bind c (fun a => lift (f a)) self) = Raise e.
Proof.
  unfold bind, lift. destruct (c self) as [s' [a'|e']]; simpl; congruence.
Qed.

Lemma dsm_get_failure api method params mv self f :
  backend (_dsm self) (mkRequest api method params mv) = inl f ->
  snd (dsm_get api method params mv self) = Raise (TransportError f).
Proof. unfold dsm_get. now intros ->. Qed.

(** X11: the three operations that return the ["success"] field
    ([enable_camera], [disable_camera], [set_home_mode]) never turn a
    problem into [False]: a transport failure leaves them as that failure,
    and a response without a ["success"] field raises [KeyError] on
    ["success"]. *)
Theorem success_field_errors self (camera_id : PyVal) (state : bool) :
  let b := backend (_dsm self) in
  let enable := mkRequest CAMERA_API_KEY "Enable" [("idList", camera_id)] None in
  let disable := mkRequest CAMERA_API_KEY "Disable" [("idList", camera_id)] None in
  let switch :=
    mkRequest HOME_MODE_API_KEY "Switch"
      [("on", PStr (if state then "true" else "false"))] None in
  let strict (req : Request) (out : Result bool) :=
    (forall f, b req = inl f -> out = Raise (TransportError f)) /\
    (forall raw, b req = inr raw -> resp_success raw = None ->
                 out = Raise (KeyError (PStr "success"))) in
  strict enable (snd (enable_camera camera_id self)) /\
  strict disable (snd (disable_camera camera_id self)) /\
  strict switch (snd (set_home_mode state self)).
Proof.
  assert (G : forall api method params,
    (forall f, backend (_dsm self) (mkRequest api method params None) = inl f ->
       snd (bind (dsm_get api method params None)
              (fun raw => lift (getitem_success raw)) self)
       = Raise (TransportError f)) /\
    (forall raw, backend (_dsm self) (mkRequest api method params None) = inr raw ->
       resp_success raw = None ->
       snd (bind (dsm_get api method params None)
              (fun raw => lift (getitem_success raw)) self)
       = Raise (KeyError (PStr "success")))).
  { intros api method params. split.
    - intros f Hb. apply bind_lift_failure. now apply dsm_get_failure.
    - intros raw Hb Hs.
      rewrite (bind_lift_answer _ _ _ _ (dsm_get_answer _ _ _ _ _ _ Hb)).
      unfold getitem_success. now rewrite Hs. }
  cbv zeta. split; [apply G|]. split; [apply G|].
  destruct state; apply G.
Qed.

Lemma success_field_errors_witness :
  snd (enable_camera (PStr "1")
         (station (always (mkResponse None None)) [] []))
    = Raise (KeyError (PStr "success"))
  /\
  snd (set_home_mode true
         (station (timing_out (fun _ => true) (serving [] [])) [] []))
    = Raise (TransportError "timeout").
Proof.
  split.
  - apply (proj2 (proj1 (success_field_errors
             (station (always (mkResponse None None)) [] []) (PStr "1") true))
             (mkResponse None None)); reflexivity.
  - apply (proj1 (proj2 (proj2 (success_field_errors
             (station (timing_out (fun _ => true) (serving [] [])) [] [])
             (PStr "1") true)))).
    reflexivity.
Defined.




End OperationResults.
